(** * lastuser_oauth/views/resource.py: scope-gated disclosure and token verification

    A shallow embedding of the resource views of Lastuser: [get_userinfo],
    [resource_error], [api_result], the two client endpoints [token_verify]
    and [token_get_scope], and the token resource handlers [resource_id] and
    [resource_avatar_edit].

    Python values are modelled as follows.
    - [str] is [string]; comparison of byte strings is lexicographic, which on
      UTF-8 text agrees with Python's code-point order.
    - A [dict] is an association list that keeps insertion order: assigning to
      a key that is present replaces the value in place, assigning to a new key
      appends it (the behaviour of CPython 3.7+ dictionaries).
    - A [set] of strings is a [gset string]; [sorted] is a merge sort of its
      elements.
    - JSON documents are values of the inductive type [json].
    - SQLAlchemy model instances are records; two instances are [==] when they
      are the same row, that is when their primary keys agree. *)

From Stdlib Require Import ZArith String Ascii List.
From stdpp Require Import base decidable option list gmap sets strings sorting.

Set Warnings "-register-all,-clear-no-such-hyp".

Local Open Scope string_scope.
Local Open Scope list_scope.

(** ** Python strings *)

Module Py.

(** [s.split(sep)] for a one-character separator: every occurrence of [sep]
    ends a (possibly empty) piece, so the empty string splits into [['']]. *)
Fixpoint split (sep : ascii) (s : string) : list string :=
  match s with
  | EmptyString => [EmptyString]
  | String c s' =>
      if Ascii.eqb c sep then EmptyString :: split sep s'
      else match split sep s' with
           | [] => [String c EmptyString]
           | w :: ws => String c w :: ws
           end
  end.

(** [item.startswith(p)] *)
Definition startswith (item p : string) : bool := String.prefix p item.

(** [item[n:]] *)
Fixpoint slice_from (n : nat) (item : string) : string :=
  match n, item with
  | O, _ => item
  | S n', String _ item' => slice_from n' item'
  | S _, EmptyString => EmptyString
  end.

(** [x in l] for a list of strings *)
Definition contains (x : string) (l : list string) : bool :=
  bool_decide (x ∈ l).

(** [not s] for an optional string: true for [None] and for [''] *)
Definition falsy (s : option string) : bool :=
  match s with
  | None => true
  | Some s => String.eqb s ""
  end.

(** [sorted(s)] for a set of strings *)
Definition sorted (s : gset string) : list string :=
  merge_sort String.le (elements s).

End Py.

(** ** Python dictionaries (insertion ordered) *)

Module Dict.

Definition t (V : Type) : Type := list (string * V).

Fixpoint get {V} (k : string) (d : t V) : option V :=
  match d with
  | [] => None
  | (k', v) :: d' => if String.eqb k k' then Some v else get k d'
  end.

(** [k in d] *)
Definition has {V} (k : string) (d : t V) : bool :=
  match get k d with Some _ => true | None => false end.

(** [d[k] = v] *)
Fixpoint set {V} (k : string) (v : V) (d : t V) : t V :=
  match d with
  | [] => [(k, v)]
  | (k', v') :: d' =>
      if String.eqb k k' then (k, v) :: d' else (k', v') :: set k v d'
  end.

Definition keys {V} (d : t V) : list string := map fst d.

(** [d.values()] *)
Definition values {V} (d : t V) : list V := map snd d.

End Dict.

(** ** JSON documents *)

Inductive json : Type :=
  | JNull
  | JBool (b : bool)
  | JInt (n : Z)
  | JStr (s : string)
  | JList (l : list json)
  | JDict (d : list (string * json)).

(** ** The models the views read *)

Module OldId.
Record t := mk { buid : string; uuid : string }.
End OldId.

Module Organization.
(** [owners] is the relationship to the organization's owners team, kept as
    that team's primary key. *)
Record t := mk {
  id : nat;
  buid : string;
  uuid : string;
  name : string;
  title : string;
  owners : option nat;
}.
End Organization.

Module Team.
Record t := mk {
  id : nat;
  buid : string;
  uuid : string;
  title : string;
  organization : Organization.t;
}.

(** [team == team.organization.owners] *)
Definition is_owners (team : t) : bool :=
  match Organization.owners (organization team) with
  | Some oid => Nat.eqb (id team) oid
  | None => false
  end.
End Team.

Module User.
(** [email] and [phone] hold the text of [str(user.email)] and
    [str(user.phone)]; [organizations_owned], [organizations_memberof] and
    [organizations] hold the results of the methods of these names. *)
Record t := mk {
  id : nat;
  buid : string;
  uuid : string;
  username : string;
  fullname : string;
  timezone : string;
  avatar : string;
  oldids : list OldId.t;
  email : string;
  phone : string;
  teams : list Team.t;
  organizations_owned : list Organization.t;
  organizations_memberof : list Organization.t;
  organizations : list Organization.t;
}.

Definition set_avatar (v : string) (u : t) : t :=
  mk (id u) (buid u) (uuid u) (username u) (fullname u) (timezone u) v
     (oldids u) (email u) (phone u) (teams u) (organizations_owned u)
     (organizations_memberof u) (organizations u).
End User.

Module UserSession.
Record t := mk { buid : string }.
End UserSession.

Module Owner.
(** The owner of a client: a user or an organization. *)
Record t := mk { buid : string; uuid : string; pickername : string }.
End Owner.

Module AuthClient.
(** [user] is the controlling user of a user-owned client (its primary key),
    [None] for a client owned by an organization. *)
Record t := mk {
  id : nat;
  buid : string;
  title : string;
  website : string;
  trusted : bool;
  namespace : option string;
  user : option nat;
  owner : Owner.t;
}.
End AuthClient.

Module AuthToken.
Record t := mk {
  user : option User.t;
  auth_client : AuthClient.t;
  effective_scope : list string;
}.
End AuthToken.

Module AuthClientUserPermissions.
Record t := mk {
  auth_client_id : nat;
  user_id : nat;
  access_permissions : string;
}.
End AuthClientUserPermissions.

Module AuthClientTeamPermissions.
Record t := mk {
  auth_client_id : nat;
  team_id : nat;
  access_permissions : string;
}.
End AuthClientTeamPermissions.

(** The rows of the data store that the views consult. *)
Module Db.
Record t := mk {
  team : list Team.t;
  auth_client_user_permissions : list AuthClientUserPermissions.t;
  auth_client_team_permissions : list AuthClientTeamPermissions.t;
  auth_token : list (string * AuthToken.t);
}.
End Db.

(** [org.teams]: the teams whose organization is [org]. *)
Definition Organization_teams (db : Db.t) (org : Organization.t) : list Team.t :=
  filter (λ team, Organization.id (Team.organization team) = Organization.id org)
         (Db.team db).

(** Modelled from the spec: [AuthClientUserPermissions.get] is defined with the
    models, outside the views; it looks up the direct grant for (client, user)
    and returns [None] when there is no grant record. *)
Definition AuthClientUserPermissions_get (db : Db.t) (auth_client : AuthClient.t)
    (user : User.t) : option AuthClientUserPermissions.t :=
  List.find
    (λ p, Nat.eqb (AuthClientUserPermissions.auth_client_id p) (AuthClient.id auth_client)
          && Nat.eqb (AuthClientUserPermissions.user_id p) (User.id user))
    (Db.auth_client_user_permissions db).

(** Modelled from the spec: [AuthClientTeamPermissions.all_for] is defined with
    the models, outside the views; it returns the (client, team) grants of the
    teams the user belongs to. *)
Definition AuthClientTeamPermissions_all_for (db : Db.t) (auth_client : AuthClient.t)
    (user : User.t) : list AuthClientTeamPermissions.t :=
  filter
    (λ p, AuthClientTeamPermissions.auth_client_id p = AuthClient.id auth_client
          ∧ AuthClientTeamPermissions.team_id p ∈ map Team.id (User.teams user))
    (Db.auth_client_team_permissions db).

(** Modelled from the spec: [AuthToken.get] is defined with the models; it
    resolves a token string to its record, if any. *)
Definition AuthToken_get (db : Db.t) (token : string) : option AuthToken.t :=
  Dict.get token (Db.auth_token db).

(** ** get_userinfo *)

(** The test [ '*' in scope or T in scope or T/* in scope ] that gates topic [T]. *)
Definition grants (scope : list string) (topic : string) : bool :=
  Py.contains "*" scope || Py.contains topic scope
  || Py.contains (topic +:+ "/*") scope.

Definition org_entry (org : Organization.t) : json :=
  JDict [("userid", JStr (Organization.buid org));
         ("buid", JStr (Organization.buid org));
         ("uuid", JStr (Organization.uuid org));
         ("name", JStr (Organization.name org));
         ("title", JStr (Organization.title org))].

Definition team_entry (team : Team.t) (member : bool) : json :=
  JDict [("userid", JStr (Team.buid team));
         ("buid", JStr (Team.buid team));
         ("uuid", JStr (Team.uuid team));
         ("title", JStr (Team.title team));
         ("org", JStr (Organization.buid (Team.organization team)));
         ("org_uuid", JStr (Organization.uuid (Team.organization team)));
         ("owners", JBool (Team.is_owners team));
         ("member", JBool member)].

(** Lines 100-110: [for team in user.teams: teams[team.buid] = {...}] *)
Definition teams_of_user (user : User.t) (teams : Dict.t json) : Dict.t json :=
  foldl (λ teams team, Dict.set (Team.buid team) (team_entry team true) teams)
        teams (User.teams user).

(** Lines 114-125: the body of the loop over one owned organization. *)
Definition teams_of_org (org_teams : list Team.t) (teams : Dict.t json)
    : Dict.t json :=
  foldl (λ teams team,
           if Dict.has (Team.buid team) teams then teams
           else Dict.set (Team.buid team) (team_entry team false) teams)
        teams org_teams.

(** Lines 113-125: [for org in user.organizations_owned(): for team in org.teams] *)
Definition teams_of_owned (db : Db.t) (user : User.t) (teams : Dict.t json)
    : Dict.t json :=
  foldl (λ teams org, teams_of_org (Organization_teams db org) teams)
        teams (User.organizations_owned user).

(** Lines 93-125: the team map after both passes. *)
Definition team_map (db : Db.t) (user : User.t) (scope : list string)
    : Dict.t json :=
  let teams := [] in
  let teams :=
    if grants scope "organizations" || grants scope "teams"
    then teams_of_user user teams else teams in
  let teams :=
    if grants scope "teams" then teams_of_owned db user teams else teams in
  teams.

(** Lines 136-143: the permission strings granted through teams. *)
Definition team_permissions (db : Db.t) (auth_client : AuthClient.t)
    (user : User.t) : list string :=
  let permsset : gset string :=
    match User.teams user with
    | [] => ∅
    | _ :: _ =>
        foldl (λ permsset permob,
                 permsset ∪ list_to_set
                   (Py.split " " (AuthClientTeamPermissions.access_permissions permob)))
              ∅ (AuthClientTeamPermissions_all_for db auth_client user)
    end in
  Py.sorted permsset.

Definition get_userinfo (db : Db.t) (user : User.t) (auth_client : AuthClient.t)
    (scope : list string) (user_session : option UserSession.t)
    (get_permissions : bool) : Dict.t json :=
  let userinfo : Dict.t json :=
    if grants scope "id" then
      [("userid", JStr (User.buid user));
       ("buid", JStr (User.buid user));
       ("uuid", JStr (User.uuid user));
       ("username", JStr (User.username user));
       ("fullname", JStr (User.fullname user));
       ("timezone", JStr (User.timezone user));
       ("avatar", JStr (User.avatar user));
       ("oldids", JList (map (λ o, JStr (OldId.buid o)) (User.oldids user)));
       ("olduuids", JList (map (λ o, JStr (OldId.uuid o)) (User.oldids user)))]
    else [] in
  let userinfo :=
    match user_session with
    | Some s => Dict.set "sessionid" (JStr (UserSession.buid s)) userinfo
    | None => userinfo
    end in
  let userinfo :=
    if grants scope "email"
    then Dict.set "email" (JStr (User.email user)) userinfo else userinfo in
  let userinfo :=
    if grants scope "phone"
    then Dict.set "phone" (JStr (User.phone user)) userinfo else userinfo in
  let userinfo :=
    if grants scope "organizations" then
      Dict.set "organizations"
        (JDict [("owner", JList (map org_entry (User.organizations_owned user)));
                ("member", JList (map org_entry (User.organizations_memberof user)));
                ("all", JList (map org_entry (User.organizations user)))])
        userinfo
    else userinfo in
  let teams := team_map db user scope in
  let userinfo :=
    match teams with
    | [] => userinfo
    | _ :: _ => Dict.set "teams" (JList (Dict.values teams)) userinfo
    end in
  if get_permissions then
    match AuthClient.user auth_client with
    | Some _ =>
        match AuthClientUserPermissions_get db auth_client user with
        | Some perms =>
            Dict.set "permissions"
              (JList (map JStr (Py.split " "
                 (AuthClientUserPermissions.access_permissions perms))))
              userinfo
        | None => userinfo
        end
    | None =>
        Dict.set "permissions" (JList (map JStr (team_permissions db auth_client user)))
          userinfo
    end
  else userinfo.

(** ** Responses *)

Module Response.
(** [jsonp] records which serialiser produced the body: [jsonp(params)] or
    [jsonify(params)]. [headers] holds the headers the view sets. *)
Record t := mk {
  status_code : Z;
  headers : Dict.t string;
  jsonp : bool;
  body : Dict.t json;
}.
End Response.

Definition no_cache_headers : Dict.t string :=
  Dict.set "Pragma" "no-cache"
    (Dict.set "Cache-Control"
       "private, no-cache, no-store, max-age=0, must-revalidate" []).

Definition resource_error (error : string) (description uri : option string)
    : Response.t :=
  let params := [("status", JStr "error"); ("error", JStr error)] in
  let params :=
    if Py.falsy description then params
    else Dict.set "error_description" (JStr (default "" description)) params in
  let params :=
    if Py.falsy uri then params
    else Dict.set "error_uri" (JStr (default "" uri)) params in
  Response.mk 400 no_cache_headers false params.

(** The first argument of [api_result] is an integer or a string. *)
Inductive status : Type :=
  | StatusInt (n : Z)
  | StatusStr (s : string).

Definition status_json (s : status) : json :=
  match s with
  | StatusInt n => JInt n
  | StatusStr s => JStr s
  end.

Definition api_result (st : status) (_jsonp : bool) (params : Dict.t json)
    : Response.t :=
  let '(status_code, st) :=
    match st with
    | StatusInt n =>
        if Z.eqb n 200 || Z.eqb n 201 then (n, StatusStr "ok") else (200%Z, st)
    | StatusStr _ => (200%Z, st)
    end in
  let params := Dict.set "status" (status_json st) params in
  Response.mk status_code no_cache_headers _jsonp params.

(** ** The request context of the client endpoints *)

Module Env.
(** [auth_client] is [current_auth.auth_client], the client that logged in to
    make the call; [form] is [request.form]. *)
Record t := mk {
  auth_client : AuthClient.t;
  form : Dict.t string;
  db : Db.t;
}.
End Env.

(** What a view consults beyond its own parameters. *)
Inductive event : Type :=
  | ReadNamespace
  | TokenLookup (token : string).

(** A view reads its context and leaves the trace of what it consulted. *)
Definition View (A : Type) : Type := Env.t → A * list event.

#[global] Instance View_ret : MRet View := λ A a _, (a, []).
#[global] Instance View_bind : MBind View := λ A B k m env,
  let '(a, tr1) := m env in
  let '(b, tr2) := k a env in
  (b, tr1 ++ tr2).

Definition form_get (key : string) : View (option string) :=
  λ env, (Dict.get key (Env.form env), []).

Definition current_auth_client : View AuthClient.t :=
  λ env, (Env.auth_client env, []).

Definition current_namespace : View (option string) :=
  λ env, (AuthClient.namespace (Env.auth_client env), [ReadNamespace]).

Definition lookup_token (token : string) : View (option AuthToken.t) :=
  λ env, (AuthToken_get (Env.db env) token, [TokenLookup token]).

Definition userinfo_for (user : User.t) (scope : list string)
    : View (Dict.t json) :=
  λ env, (get_userinfo (Env.db env) user (Env.auth_client env) scope None true, []).

Definition response_of {A} (v : View A) (env : Env.t) : A := fst (v env).
Definition trace_of {A} (v : View A) (env : Env.t) : list event := snd (v env).

(** ** token_verify and token_get_scope *)

(** Lines 227-236 and 275-283: the description of the token's client. *)
Definition clientinfo (authtoken : AuthToken.t) : Dict.t json :=
  let c := AuthToken.auth_client authtoken in
  [("title", JStr (AuthClient.title c));
   ("userid", JStr (Owner.buid (AuthClient.owner c)));
   ("buid", JStr (Owner.buid (AuthClient.owner c)));
   ("uuid", JStr (Owner.uuid (AuthClient.owner c)));
   ("owner_title", JStr (Owner.pickername (AuthClient.owner c)));
   ("website", JStr (AuthClient.website c));
   ("key", JStr (AuthClient.buid c));
   ("trusted", JBool (AuthClient.trusted c))].

(** Lines 220-226 and 268-274: [validity] and, for a token with a user,
    [userinfo]. *)
Definition token_params (authtoken : AuthToken.t) : View (Dict.t json) :=
  let params := [("validity", JInt 120)] in
  match AuthToken.user authtoken with
  | Some user =>
      userinfo ← userinfo_for user (AuthToken.effective_scope authtoken);
      mret (Dict.set "userinfo" (JDict userinfo) params)
  | None => mret params
  end.

(** [current_auth.auth_client.namespace] is read at line 203 and again at
    lines 212-214; the value is that of the one calling client, bound here
    once. *)
Definition token_verify : View Response.t :=
  token ← form_get "access_token";
  client_resource ← form_get "resource";
  if Py.falsy client_resource then mret (resource_error "no_resource" None None)
  else
  let client_resource := default "" client_resource in
  if negb (String.eqb client_resource "*")
  then mret (resource_error "unknown_resource" None None)
  else
  if Py.falsy token then mret (resource_error "no_token" None None)
  else
  let token := default "" token in
  namespace ← current_namespace;
  if Py.falsy namespace
  then mret (api_result (StatusStr "error") false [("error", JStr "client_no_resources")])
  else
  let namespace := default "" namespace in
  authtoken ← lookup_token token;
  match authtoken with
  | None => mret (api_result (StatusStr "error") false [("error", JStr "no_token")])
  | Some authtoken =>
      if negb (Py.contains ((namespace +:+ ":") +:+ client_resource)
                 (AuthToken.effective_scope authtoken))
         && negb (Py.contains (namespace +:+ ":*")
                    (AuthToken.effective_scope authtoken))
      then mret (api_result (StatusStr "error") false [("error", JStr "access_denied")])
      else
        params ← token_params authtoken;
        let params := Dict.set "clientinfo" (JDict (clientinfo authtoken)) params in
        mret (api_result (StatusStr "ok") false params)
  end.

(** Lines 257-261: the entries of the scope under the prefix, stripped of it. *)
Definition client_resources_of (nsprefix : string) (scope : list string)
    : list string :=
  foldl (λ client_resources item,
           if Py.startswith item nsprefix
           then client_resources ++ [Py.slice_from (String.length nsprefix) item]
           else client_resources)
        [] scope.

Definition token_get_scope : View Response.t :=
  token ← form_get "access_token";
  if Py.falsy token then mret (resource_error "no_token" None None)
  else
  let token := default "" token in
  namespace ← current_namespace;
  if Py.falsy namespace
  then mret (api_result (StatusStr "error") false [("error", JStr "client_no_resources")])
  else
  let namespace := default "" namespace in
  authtoken ← lookup_token token;
  match authtoken with
  | None => mret (api_result (StatusStr "error") false [("error", JStr "no_token")])
  | Some authtoken =>
      let nsprefix := namespace +:+ ":" in
      let client_resources :=
        client_resources_of nsprefix (AuthToken.effective_scope authtoken) in
      match client_resources with
      | [] => mret (api_result (StatusStr "error") false [("error", JStr "no_access")])
      | _ :: _ =>
          params ← token_params authtoken;
          let params :=
            Dict.set "clientinfo"
              (JDict (clientinfo authtoken
                        ++ [("scope", JList (map JStr client_resources))]))
              params in
          mret (api_result (StatusStr "ok") false params)
      end
  end.

(** ** Token resource handlers *)

Inductive exception : Type :=
  | BadRequest (description : string)
  | KeyError (key : string)
  | AttributeError
  | ValueError (message : string).

Inductive result (A : Type) : Type :=
  | Return (a : A)
  | Raise (e : exception).
Arguments Return {A} a.
Arguments Raise {A} e.

Module ParseResult.
(** The result of [urllib.parse.urlparse]: the view reads [scheme] and
    [netloc]; [hostname] is the host that the result derives from [netloc],
    [None] when [netloc] names no host. *)
Record t := mk { scheme : string; netloc : string; hostname : option string }.
End ParseResult.

(** [get_userinfo] called with [None] for [user], as for a token without a
    user: every topic test that passes reads an attribute of [user] and
    raises [AttributeError] (lines 39, 56, 58, 69, 100 and 113), and so does
    [user.teams] at line 137 for a client that is not user-owned. For a
    user-owned client the lookup of line 132 is made for no user and finds no
    grant, so nothing is attached. *)
Definition get_userinfo_no_user (auth_client : AuthClient.t)
    (scope : list string) (user_session : option UserSession.t)
    (get_permissions : bool) : result (Dict.t json) :=
  if grants scope "id" then Raise AttributeError
  else
  let userinfo : Dict.t json :=
    match user_session with
    | Some s => Dict.set "sessionid" (JStr (UserSession.buid s)) []
    | None => []
    end in
  if grants scope "email" || grants scope "phone"
     || grants scope "organizations" || grants scope "teams"
  then Raise AttributeError
  else if get_permissions then
    match AuthClient.user auth_client with
    | Some _ => Return userinfo
    | None => Raise AttributeError
    end
  else Return userinfo.

Section Handlers.

(** [coaster.utils.getbool] and [urllib.parse.urlparse] are library functions;
    the handlers are stated for any implementation of them. [urlparse]
    returns its result or raises (a [ValueError], for some malformed network
    locations). *)
Variable getbool : string → option bool.
Variable urlparse : string → result ParseResult.t.

(** A handler is called with the token the registry resolved, which may have
    no user. *)
Definition resource_id (db : Db.t) (authtoken : AuthToken.t)
    (args : Dict.t string) : result (Dict.t json) :=
  let all :=
    match Dict.get "all" args with
    | Some v => match getbool v with Some true => true | _ => false end
    | None => false
    end in
  match AuthToken.user authtoken with
  | None =>
      if all then
        get_userinfo_no_user (AuthToken.auth_client authtoken)
          (AuthToken.effective_scope authtoken) None true
      else
        get_userinfo_no_user (AuthToken.auth_client authtoken) ["id"] None false
  | Some user =>
      if all then
        Return (get_userinfo db user (AuthToken.auth_client authtoken)
                  (AuthToken.effective_scope authtoken) None true)
      else
        Return (get_userinfo db user (AuthToken.auth_client authtoken)
                  ["id"] None false)
  end.

(** The handler assigns to [authtoken.user.avatar]; the token after the call
    is returned with the result. An exception of [urlparse] is not caught. *)
Definition resource_avatar_edit (authtoken : AuthToken.t) (args : Dict.t string)
    : result (Dict.t json) * AuthToken.t :=
  match Dict.get "avatar" args with
  | None => (Raise (KeyError "avatar"), authtoken)
  | Some avatar =>
      match urlparse avatar with
      | Raise e => (Raise e, authtoken)
      | Return parsed =>
          if String.eqb (ParseResult.scheme parsed) "https"
             && negb (String.eqb (ParseResult.netloc parsed) "")
          then
            match AuthToken.user authtoken with
            | None => (Raise AttributeError, authtoken)
            | Some user =>
                let user := User.set_avatar avatar user in
                let authtoken :=
                  AuthToken.mk (Some user) (AuthToken.auth_client authtoken)
                    (AuthToken.effective_scope authtoken) in
                (Return [("avatar", JStr (User.avatar user))], authtoken)
            end
          else (Raise (BadRequest "Invalid avatar URL"), authtoken)
      end
  end.

End Handlers.

(** ** Definitions used to state the properties *)

Definition nonempty {A} (l : list A) : bool :=
  match l with [] => false | _ :: _ => true end.

(** The fields of the [id] topic (lines 38-48). *)
Definition id_fields (user : User.t) : Dict.t json :=
  [("userid", JStr (User.buid user));
   ("buid", JStr (User.buid user));
   ("uuid", JStr (User.uuid user));
   ("username", JStr (User.username user));
   ("fullname", JStr (User.fullname user));
   ("timezone", JStr (User.timezone user));
   ("avatar", JStr (User.avatar user));
   ("oldids", JList (map (λ o, JStr (OldId.buid o)) (User.oldids user)));
   ("olduuids", JList (map (λ o, JStr (OldId.uuid o)) (User.oldids user)))].

(** Whether [get_userinfo] attaches [permissions] (lines 130-143). *)
Definition attaches_permissions (db : Db.t) (user : User.t)
    (auth_client : AuthClient.t) (get_permissions : bool) : bool :=
  get_permissions &&
  match AuthClient.user auth_client with
  | Some _ => bool_decide (is_Some (AuthClientUserPermissions_get db auth_client user))
  | None => true
  end.

(** ** Sample data *)

Module Sample.

Definition acme : Organization.t :=
  Organization.mk 1 "org-acme" "uuid-acme" "acme" "Acme Inc" (Some 10).

Definition owners_team : Team.t := Team.mk 10 "team-owners" "uuid-t10" "Owners" acme.
Definition dev_team : Team.t := Team.mk 11 "team-dev" "uuid-t11" "Developers" acme.

(** alice belongs to the developers; bob owns acme and belongs to its owners
    team; carol belongs to no team and owns no organization. *)
Definition alice : User.t :=
  User.mk 1 "user-alice" "uuid-alice" "alice" "Alice" "UTC" "https://img/alice.png"
    [OldId.mk "user-al" "uuid-al"] "alice@example.com" "+15550001"
    [dev_team] [] [acme] [acme].

Definition bob : User.t :=
  User.mk 2 "user-bob" "uuid-bob" "bob" "Bob" "UTC" "" []
    "bob@example.com" "+15550002" [owners_team] [acme] [] [acme].

Definition carol : User.t :=
  User.mk 3 "user-carol" "uuid-carol" "carol" "Carol" "UTC" "" []
    "carol@example.com" "+15550003" [] [] [] [].

(** [crm] is owned by acme and has a namespace; [app] is owned by alice and
    has none. *)
Definition crm : AuthClient.t :=
  AuthClient.mk 1 "client-crm" "CRM" "https://crm.example.com" false
    (Some "crm") None (Owner.mk "org-acme" "uuid-acme" "Acme Inc").

Definition app : AuthClient.t :=
  AuthClient.mk 2 "client-app" "App" "https://app.example.com" true
    None (Some 1) (Owner.mk "user-alice" "uuid-alice" "Alice (@alice)").

(** Three tokens issued to [app]: one for alice with two resources of [crm],
    one for bob with every resource of [crm], one without a user. *)
Definition token : AuthToken.t :=
  AuthToken.mk (Some alice) app ["id"; "crm:contacts"; "other:x"; "crm:deals"].

Definition token_bob : AuthToken.t :=
  AuthToken.mk (Some bob) app ["id"; "teams"; "crm:*"].

Definition token_app : AuthToken.t :=
  AuthToken.mk None app ["crm:*"].

Definition db : Db.t :=
  Db.mk [owners_team; dev_team]
    [AuthClientUserPermissions.mk 2 1 "read write"]
    [AuthClientTeamPermissions.mk 1 11 "deals contacts";
     AuthClientTeamPermissions.mk 1 10 "admin contacts";
     AuthClientTeamPermissions.mk 2 11 "other"]
    [("tok-alice", token); ("tok-bob", token_bob); ("tok-app", token_app)].

(** A call by [crm] with the given form. *)
Definition call (form : Dict.t string) : Env.t := Env.mk crm form db.

End Sample.

(** The keys a topic governs: the [id] topic has nine fields, every other
    topic one key of its own name. *)
Definition topic_keys (topic : string) : list string :=
  if String.eqb topic "id"
  then ["userid"; "buid"; "uuid"; "username"; "fullname"; "timezone";
        "avatar"; "oldids"; "olduuids"]
  else [topic].

Definition error_code (r : Response.t) : option json :=
  Dict.get "error" (Response.body r).

Definition status_of (r : Response.t) : option json :=
  Dict.get "status" (Response.body r).

(** The success branch of [token_verify] (lines 218-237). *)
Definition verify_ok (env : Env.t) (authtoken : AuthToken.t) : Response.t :=
  let params := [("validity", JInt 120)] in
  let params :=
    match AuthToken.user authtoken with
    | Some user =>
        Dict.set "userinfo"
          (JDict (get_userinfo (Env.db env) user (Env.auth_client env)
                    (AuthToken.effective_scope authtoken) None true))
          params
    | None => params
    end in
  api_result (StatusStr "ok") false
    (Dict.set "clientinfo" (JDict (clientinfo authtoken)) params).

(** One step of the loop of lines 259-261. *)
Definition strip_prefix (nsprefix item : string) : option string :=
  if Py.startswith item nsprefix
  then Some (Py.slice_from (String.length nsprefix) item) else None.

(** The success branch of [token_get_scope] (lines 266-286). *)
Definition get_scope_ok (env : Env.t) (authtoken : AuthToken.t)
    (client_resources : list string) : Response.t :=
  let params := [("validity", JInt 120)] in
  let params :=
    match AuthToken.user authtoken with
    | Some user =>
        Dict.set "userinfo"
          (JDict (get_userinfo (Env.db env) user (Env.auth_client env)
                    (AuthToken.effective_scope authtoken) None true))
          params
    | None => params
    end in
  api_result (StatusStr "ok") false
    (Dict.set "clientinfo"
       (JDict (clientinfo authtoken ++ [("scope", JList (map JStr client_resources))]))
       params).

(** [j[k]] for a JSON object. *)
Definition json_get (k : string) (j : json) : option json :=
  match j with
  | JDict d => Dict.get k d
  | _ => None
  end.

(** What lines 130-143 attach under [permissions], if anything. *)
Definition permissions_for (db : Db.t) (auth_client : AuthClient.t)
    (user : User.t) : option (list string) :=
  match AuthClient.user auth_client with
  | Some _ =>
      (λ perms, Py.split " " (AuthClientUserPermissions.access_permissions perms))
        <$> AuthClientUserPermissions_get db auth_client user
  | None => Some (team_permissions db auth_client user)
  end.

(** What an entry of the team map is: the record of a team the user belongs
    to, marked as member, or the record of a team of an organization the user
    owns whose buid is not that of a team the user belongs to, marked as
    non-member. *)
Definition team_entry_of (db : Db.t) (user : User.t) (e : string * json) : Prop :=
  ∃ team (member : bool),
    e = (Team.buid team, team_entry team member)
    ∧ if member then team ∈ User.teams user
      else (∃ org, org ∈ User.organizations_owned user
                   ∧ team ∈ Organization_teams db org)
           ∧ Team.buid team ∉ map Team.buid (User.teams user).

(** The state of the team map during the second pass: keys are distinct,
    every entry is a team entry, and every team of the user has its key. *)
Definition team_map_ok (db : Db.t) (user : User.t) (teams : Dict.t json) : Prop :=
  NoDup (Dict.keys teams)
  ∧ Forall (team_entry_of db user) teams
  ∧ ∀ team, team ∈ User.teams user → Dict.has (Team.buid team) teams = true.

(** ** Library functions for the examples *)

Module Lib.

Definition is_upper (c : ascii) : bool :=
  let n := nat_of_ascii c in (65 <=? n)%nat && (n <=? 90)%nat.

Definition is_lower (c : ascii) : bool :=
  let n := nat_of_ascii c in (97 <=? n)%nat && (n <=? 122)%nat.

Definition is_digit (c : ascii) : bool :=
  let n := nat_of_ascii c in (48 <=? n)%nat && (n <=? 57)%nat.

Definition lower_char (c : ascii) : ascii :=
  if is_upper c then ascii_of_nat (nat_of_ascii c + 32) else c.

(** [s.lower()] on ASCII text *)
Fixpoint lower (s : string) : string :=
  match s with
  | EmptyString => EmptyString
  | String c s' => String (lower_char c) (lower s')
  end.

(** [coaster.utils.getbool] as its documentation gives it: the lower-cased
    text is looked up among the words for true, then among those for false. *)
Definition getbool (value : string) : option bool :=
  let value := lower value in
  if Py.contains value ["1"; "t"; "true"; "y"; "yes"] then Some true
  else if Py.contains value ["0"; "f"; "false"; "n"; "no"] then Some false
  else None.

(** [url.find(':')], returning the text before and after the first colon *)
Fixpoint cut_colon (url : string) : option (string * string) :=
  match url with
  | EmptyString => None
  | String c url' =>
      if Ascii.eqb c ":" then Some (EmptyString, url')
      else match cut_colon url' with
           | Some (before, after) => Some (String c before, after)
           | None => None
           end
  end.

Definition is_scheme_char (c : ascii) : bool :=
  is_upper c || is_lower c || is_digit c
  || Ascii.eqb c "+" || Ascii.eqb c "-" || Ascii.eqb c ".".

Fixpoint all_chars (p : ascii → bool) (s : string) : bool :=
  match s with
  | EmptyString => true
  | String c s' => p c && all_chars p s'
  end.

(** The text up to the first of [/], [?], [#] *)
Fixpoint until_delimiter (s : string) : string :=
  match s with
  | EmptyString => EmptyString
  | String c s' =>
      if Ascii.eqb c "/" || Ascii.eqb c "?" || Ascii.eqb c "#" then EmptyString
      else String c (until_delimiter s')
  end.

(** The text after the last [c], if [c] occurs *)
Fixpoint after_last (c : ascii) (s : string) : option string :=
  match s with
  | EmptyString => None
  | String x s' =>
      match after_last c s' with
      | Some rest => Some rest
      | None => if Ascii.eqb x c then Some s' else None
      end
  end.

(** The text after the first [c], if [c] occurs *)
Fixpoint after_first (c : ascii) (s : string) : option string :=
  match s with
  | EmptyString => None
  | String x s' => if Ascii.eqb x c then Some s' else after_first c s'
  end.

(** The text before the first [c], all of it if [c] does not occur *)
Fixpoint before_first (c : ascii) (s : string) : string :=
  match s with
  | EmptyString => EmptyString
  | String x s' => if Ascii.eqb x c then EmptyString else String x (before_first c s')
  end.

(** The [hostname] of a result: the network location after the last [@];
    the text between brackets if there is one, else the text before the
    first colon; [None] if that is empty, else in lower case up to a [%]. *)
Definition hostname_of (netloc : string) : option string :=
  let hostinfo := default netloc (after_last "@" netloc) in
  let hostname :=
    match after_first "[" hostinfo with
    | Some bracketed => before_first "]" bracketed
    | None => before_first ":" hostinfo
    end in
  if String.eqb hostname "" then None
  else
    Some (match after_first "%" hostname with
          | Some zone => lower (before_first "%" hostname) +:+ "%" +:+ zone
          | None => lower hostname
          end).

(** [urllib.parse.urlparse] on ASCII text without blanks: a scheme is a
    letter followed by scheme characters up to the first colon, in lower
    case; the network location follows [//] and ends before the path, query
    or fragment; a network location with only one of the two brackets raises
    [ValueError]. One with both brackets is taken as it is, without the
    validation of the bracketed host that recent versions add. *)
Definition urlparse (url : string) : result ParseResult.t :=
  let '(scheme, rest) :=
    match cut_colon url with
    | Some (String c before, after) =>
        if (is_upper c || is_lower c) && all_chars is_scheme_char before
        then (lower (String c before), after) else (EmptyString, url)
    | _ => (EmptyString, url)
    end in
  let netloc :=
    if Py.startswith rest "//" then until_delimiter (Py.slice_from 2 rest)
    else EmptyString in
  let has c := match after_first c netloc with Some _ => true | None => false end in
  if xorb (has "["%char) (has "]"%char) then Raise (ValueError "Invalid IPv6 URL")
  else Return (ParseResult.mk scheme netloc (hostname_of netloc)).

End Lib.

(** ** The remaining views of resource.py *)

(** [sep.join(l)] *)
Fixpoint str_join (sep : string) (l : list string) : string :=
  match l with
  | [] => EmptyString
  | x :: l' =>
      match l' with
      | [] => x
      | _ :: _ => x +:+ sep +:+ str_join sep l'
      end
  end.

(** Whether a string has the character [c]. *)
Fixpoint has_char (c : ascii) (s : string) : bool :=
  match s with
  | EmptyString => false
  | String x s' => Ascii.eqb x c || has_char c s'
  end.

Module UserEmail.
(** [email] holds the text of [str(email)]. *)
Record t := mk { email : string; private : bool }.
End UserEmail.

Module ExternalId.
(** Each field holds the text of [str] of the attribute of that name. *)
Record t := mk {
  service : string;
  userid : string;
  username : string;
  oauth_token : string;
  oauth_token_secret : string;
  oauth_token_type : string;
}.
End ExternalId.

Module Session.
(** A row of [UserSession] with the attributes [session_verify] reads. *)
Record t := mk { buid : string; user : User.t; has_sudo : bool }.
End Session.

(** What [session_verify] does to the store. *)
Inductive session_effect : Type :=
  | Access (session auth_client : string)
  | Commit.

Section Views.

(** The model methods and library functions these views call are defined
    outside the views; the views are stated for any implementation of them. *)
Variable getuser : string → option User.t.
Variable User_get : string → option User.t.
Variable Organization_get : string → option Organization.t.
Variable User_pickername : User.t → string.
Variable Organization_pickername : Organization.t → string.
Variable User_emails : User.t → list UserEmail.t.
Variable User_externalids : User.t → list ExternalId.t.
Variable UserSession_authenticate : string → option Session.t.
Variable UserSession_access : AuthClient.t → Session.t → Session.t.
Variable getbool : string → option bool.

(** The description of a user in lines 303-312, 390-399 and 422-431. *)
Definition user_fields (user : User.t) : Dict.t json :=
  [("type", JStr "user");
   ("userid", JStr (User.buid user));
   ("buid", JStr (User.buid user));
   ("uuid", JStr (User.uuid user));
   ("name", JStr (User.username user));
   ("title", JStr (User.fullname user));
   ("label", JStr (User_pickername user));
   ("timezone", JStr (User.timezone user));
   ("oldids", JList (map (λ o, JStr (OldId.buid o)) (User.oldids user)));
   ("olduuids", JList (map (λ o, JStr (OldId.uuid o)) (User.oldids user)))].

(** The description of an organization in lines 320-326. *)
Definition organization_fields (org : Organization.t) : Dict.t json :=
  [("type", JStr "organization");
   ("userid", JStr (Organization.buid org));
   ("buid", JStr (Organization.buid org));
   ("uuid", JStr (Organization.uuid org));
   ("name", JStr (Organization.name org));
   ("title", JStr (Organization.title org));
   ("label", JStr (Organization_pickername org))].

(** [values] is [request.values]. *)
Definition user_get_by_userid (values : Dict.t string) : Response.t :=
  let buid := Dict.get "userid" values in
  if Py.falsy buid
  then api_result (StatusStr "error") false [("error", JStr "no_userid_provided")]
  else
  let buid := default "" buid in
  match User_get buid with
  | Some user => api_result (StatusStr "ok") true (user_fields user)
  | None =>
      match Organization_get buid with
      | Some org => api_result (StatusStr "ok") true (organization_fields org)
      | None => api_result (StatusStr "error") true [("error", JStr "not_found")]
      end
  end.

Definition user_get (name : option string) : Response.t :=
  if Py.falsy name
  then api_result (StatusStr "error") false [("error", JStr "no_name_provided")]
  else
  match getuser (default "" name) with
  | Some user => api_result (StatusStr "ok") false (user_fields user)
  | None => api_result (StatusStr "error") false [("error", JStr "not_found")]
  end.

(** Lines 416-434: the loop over the names, with the results and the set of
    the buids seen. *)
Definition getall_step (acc : list json * gset string) (name : string)
    : list json * gset string :=
  let '(results, buids) := acc in
  match getuser name with
  | Some user =>
      if bool_decide (User.buid user ∈ buids) then (results, buids)
      else (results ++ [JDict (user_fields user)], buids ∪ {[User.buid user]})
  | None => (results, buids)
  end.

(** The users of a list with distinct buids, each the first of its buid. *)
Fixpoint first_occurrences (users : list User.t) : list User.t :=
  match users with
  | [] => []
  | user :: users' =>
      user :: filter (λ other, User.buid other ≠ User.buid user)
                     (first_occurrences users')
  end.

Definition getall_results (names : list string) : list json :=
  fst (foldl getall_step ([], ∅) names).

Definition user_getall (names : list string) : Response.t :=
  match names with
  | [] => api_result (StatusStr "error") false [("error", JStr "no_name_provided")]
  | _ :: _ =>
      match getall_results names with
      | [] => api_result (StatusStr "error") false [("error", JStr "not_found")]
      | results => api_result (StatusStr "ok") false [("results", JList results)]
      end
  end.

(** ['all' in args and getbool(args['all'])] *)
Definition all_flag (args : Dict.t string) : bool :=
  match Dict.get "all" args with
  | Some v => match getbool v with Some true => true | _ => false end
  | None => false
  end.

Definition resource_email (authtoken : AuthToken.t) (args : Dict.t string)
    : result (Dict.t json) :=
  match AuthToken.user authtoken with
  | None => Raise AttributeError
  | Some user =>
      if all_flag args then
        Return [("email", JStr (User.email user));
                ("all", JList (map (λ email, JStr (UserEmail.email email))
                                 (filter (λ email, UserEmail.private email = false)
                                         (User_emails user))))]
      else Return [("email", JStr (User.email user))]
  end.

Definition externalid_entry (extid : ExternalId.t) : json :=
  JDict [("userid", JStr (ExternalId.userid extid));
         ("username", JStr (ExternalId.username extid));
         ("oauth_token", JStr (ExternalId.oauth_token extid));
         ("oauth_token_secret", JStr (ExternalId.oauth_token_secret extid));
         ("oauth_token_type", JStr (ExternalId.oauth_token_type extid))].

(** Lines 607-615: the loop over the external ids. *)
Definition login_providers_of (service : option string)
    (externalids : list ExternalId.t) : Dict.t json :=
  foldl (λ response extid,
           match service with
           | Some s =>
               if String.eqb (ExternalId.service extid) s
               then Dict.set (ExternalId.service extid) (externalid_entry extid) response
               else response
           | None =>
               Dict.set (ExternalId.service extid) (externalid_entry extid) response
           end)
        [] externalids.

Definition resource_login_providers (authtoken : AuthToken.t)
    (args : Dict.t string) : result (Dict.t json) :=
  let service := Dict.get "service" args in
  match AuthToken.user authtoken with
  | None => Raise AttributeError
  | Some user => Return (login_providers_of service (User_externalids user))
  end.

Definition resource_organizations (db : Db.t) (authtoken : AuthToken.t)
    (args : Dict.t string) : result (Dict.t json) :=
  match AuthToken.user authtoken with
  | None => Raise AttributeError
  | Some user =>
      Return (get_userinfo db user (AuthToken.auth_client authtoken)
                ["organizations"] None false)
  end.

Definition resource_teams (db : Db.t) (authtoken : AuthToken.t)
    (args : Dict.t string) : result (Dict.t json) :=
  match AuthToken.user authtoken with
  | None => Raise AttributeError
  | Some user =>
      Return (get_userinfo db user (AuthToken.auth_client authtoken)
                ["teams"] None false)
  end.

(** [session.user == authtoken.user] *)
Definition session_of_user (session : Session.t) (authtoken : AuthToken.t) : bool :=
  match AuthToken.user authtoken with
  | Some user => Nat.eqb (User.id (Session.user session)) (User.id user)
  | None => false
  end.

(** The view returns its document with the effects on the store, in order;
    the attributes of the session are read after [session.access]. *)
Definition session_verify (authtoken : AuthToken.t) (args : Dict.t string)
    : result (Dict.t json) * list session_effect :=
  match Dict.get "sessionid" args with
  | None => (Raise (KeyError "sessionid"), [])
  | Some sessionid =>
      match UserSession_authenticate sessionid with
      | Some session =>
          if session_of_user session authtoken then
            let effects :=
              [Access (Session.buid session)
                 (AuthClient.buid (AuthToken.auth_client authtoken));
               Commit] in
            let session := UserSession_access (AuthToken.auth_client authtoken) session in
            (Return [("active", JBool true);
                     ("sessionid", JStr (Session.buid session));
                     ("userid", JStr (User.buid (Session.user session)));
                     ("buid", JStr (User.buid (Session.user session)));
                     ("user_uuid", JStr (User.uuid (Session.user session)));
                     ("sudo", JBool (Session.has_sudo session))],
             effects)
          else (Return [("active", JBool false)], [])
      | None => (Return [("active", JBool false)], [])
      end
  end.

End Views.

(** ** lastuserapp/forms/login.py *)

Inductive form_exception : Type :=
  | ValidationError (message : string).

(** A validator returns (its value is ignored by the form) or raises. *)
Inductive validation : Type :=
  | Passes
  | Fails (e : form_exception).

Section Forms.

Variable getuser : string → option User.t.
Variable check_password : User.t → string → bool.
Variable valid_username : string → bool.
(** [User.query.filter_by(username=...).first()] *)
Variable User_by_username : string → option User.t.

Definition LoginForm_validate_username (data : string) : validation :=
  match getuser data with
  | None => Fails (ValidationError "User does not exist")
  | Some _ => Passes
  end.

(** [username] is [self.username.data]; the second component is [self.user]
    after the call, given its value before. *)
Definition LoginForm_validate_password (username data : string)
    (self_user : option User.t) : validation * option User.t :=
  match getuser username with
  | None => (Fails (ValidationError "Incorrect password"), self_user)
  | Some user =>
      if negb (check_password user data)
      then (Fails (ValidationError "Incorrect password"), self_user)
      else (Passes, Some user)
  end.

(** Line 40 returns the error class and the message instead of raising. *)
Definition RegisterForm_validate_username (data : string) : validation :=
  if negb (valid_username data) then Passes
  else
    match User_by_username data with
    | Some _ => Fails (ValidationError "That username is taken")
    | None => Passes
    end.

End Forms.

(** * Properties *)

(** ** Dictionaries *)

Section DictFacts.
Context {V : Type}.
Implicit Types (d : Dict.t V) (k : string) (v : V).

Lemma Dict_get_set_eq k v d : Dict.get k (Dict.set k v d) = Some v.
Proof.
  induction d as [|[k' v'] d IH]; simpl.
  - by rewrite String.eqb_refl.
  - destruct (String.eqb k k') eqn:E; simpl.
    + by rewrite String.eqb_refl.
    + by rewrite E.
Qed.

Lemma Dict_get_set_ne k k' v d :
  k ≠ k' → Dict.get k' (Dict.set k v d) = Dict.get k' d.
Proof.
  intros Hne. induction d as [|[k0 v0] d IH]; simpl.
  - destruct (String.eqb k' k) eqn:E; [|done].
    apply String.eqb_eq in E. congruence.
  - destruct (String.eqb k k0) eqn:E; simpl.
    + apply String.eqb_eq in E. subst k0.
      destruct (String.eqb k' k) eqn:E'; [|done].
      apply String.eqb_eq in E'. congruence.
    + by rewrite IH.
Qed.

Lemma Dict_has_set k k' v d :
  Dict.has k' (Dict.set k v d) = String.eqb k' k || Dict.has k' d.
Proof.
  unfold Dict.has. destruct (String.eqb k' k) eqn:E; simpl.
  - apply String.eqb_eq in E. subst. by rewrite Dict_get_set_eq.
  - apply String.eqb_neq in E. by rewrite Dict_get_set_ne.
Qed.

Lemma Dict_has_set_if (c : bool) k k' v d :
  Dict.has k' (if c then Dict.set k v d else d)
  = c && String.eqb k' k || Dict.has k' d.
Proof. destruct c; simpl; [apply Dict_has_set | done]. Qed.

Lemma Dict_set_nonempty k v d : Dict.set k v d ≠ [].
Proof. destruct d as [|[k' v'] d]; simpl; [done|]. by destruct (String.eqb k k'). Qed.

Lemma Dict_has_keys k d : Dict.has k d = true ↔ k ∈ Dict.keys d.
Proof.
  unfold Dict.has, Dict.keys. induction d as [|[k' v'] d IH]; simpl.
  - split; [done | by intros ?%elem_of_nil].
  - rewrite elem_of_cons. destruct (String.eqb k k') eqn:E.
    + apply String.eqb_eq in E. naive_solver.
    + apply String.eqb_neq in E. rewrite IH. naive_solver.
Qed.

(** Assignment keeps the keys when the key is present and appends it when
    it is new. *)
Lemma Dict_keys_set k v d :
  Dict.keys (Dict.set k v d)
  = if Dict.has k d then Dict.keys d else Dict.keys d ++ [k].
Proof.
  unfold Dict.has, Dict.keys. induction d as [|[k' v'] d IH]; simpl; [done|].
  destruct (String.eqb k k') eqn:E; simpl.
  - apply String.eqb_eq in E. by subst.
  - rewrite IH. by destruct (Dict.get k d).
Qed.

Lemma Dict_keys_set_NoDup k v d :
  NoDup (Dict.keys d) → NoDup (Dict.keys (Dict.set k v d)).
Proof.
  intros Hnd. rewrite Dict_keys_set. destruct (Dict.has k d) eqn:E; [done|].
  apply NoDup_app. split_and!; [done | | apply NoDup_singleton].
  intros x Hx ->%list_elem_of_singleton.
  apply Dict_has_keys in Hx. congruence.
Qed.

End DictFacts.

(** ** Scope tests *)

Lemma contains_spec x l : Py.contains x l = true ↔ x ∈ l.
Proof. unfold Py.contains. apply bool_decide_eq_true. Qed.

Lemma grants_spec scope topic :
  grants scope topic = true
  ↔ "*" ∈ scope ∨ topic ∈ scope ∨ (topic +:+ "/*") ∈ scope.
Proof.
  unfold grants. rewrite !orb_true_iff, !contains_spec. tauto.
Qed.

Lemma grants_mono scope scope' topic :
  scope ⊆ scope' → grants scope topic = true → grants scope' topic = true.
Proof. rewrite !grants_spec. intros Hsub. set_solver. Qed.

(** ** The team map *)

Lemma teams_of_user_nil user teams :
  teams_of_user user teams = [] ↔ User.teams user = [] ∧ teams = [].
Proof.
  unfold teams_of_user. revert teams.
  induction (User.teams user) as [|team l IH]; intros teams; simpl.
  - naive_solver.
  - rewrite IH. split; [|naive_solver].
    intros [_ H]. by apply Dict_set_nonempty in H.
Qed.

Lemma teams_of_org_nil org_teams teams :
  teams_of_org org_teams teams = [] ↔ org_teams = [] ∧ teams = [].
Proof.
  unfold teams_of_org. revert teams.
  induction org_teams as [|team l IH]; intros teams; simpl.
  - naive_solver.
  - rewrite IH. split; [|naive_solver].
    intros [_ H]. destruct (Dict.has _ _) eqn:E; [by subst|].
    by apply Dict_set_nonempty in H.
Qed.

Lemma teams_of_owned_nil db user teams :
  teams_of_owned db user teams = []
  ↔ Forall (λ org, Organization_teams db org = []) (User.organizations_owned user)
    ∧ teams = [].
Proof.
  unfold teams_of_owned. revert teams.
  induction (User.organizations_owned user) as [|org l IH]; intros teams; simpl.
  - split; [by intros -> | by intros [_ ->]].
  - rewrite IH, teams_of_org_nil, Forall_cons. tauto.
Qed.

(** The team map is empty exactly when neither pass has a team to add. *)
Lemma team_map_nil db user scope :
  team_map db user scope = []
  ↔ (grants scope "organizations" || grants scope "teams" = true
       → User.teams user = [])
    ∧ (grants scope "teams" = true
       → Forall (λ org, Organization_teams db org = [])
                (User.organizations_owned user)).
Proof.
  unfold team_map.
  destruct (grants scope "teams") eqn:Ht;
    destruct (grants scope "organizations") eqn:Ho; simpl;
    rewrite ?teams_of_owned_nil, ?teams_of_user_nil; naive_solver.
Qed.

Lemma nonempty_true {A} (l : list A) : nonempty l = true ↔ l ≠ [].
Proof. by destruct l. Qed.

Lemma team_map_mono db user scope scope' :
  scope ⊆ scope' →
  nonempty (team_map db user scope) = true →
  nonempty (team_map db user scope') = true.
Proof.
  intros Hsub. rewrite !nonempty_true, !team_map_nil.
  intros Hne [H1 H2]. apply Hne. split.
  - intros Hg. apply H1. apply orb_true_iff in Hg. apply orb_true_iff.
    destruct Hg as [Hg|Hg]; [left|right]; by eapply grants_mono.
  - intros Hg. apply H2. by eapply grants_mono.
Qed.

(** ** Which keys a projection has *)

Lemma get_userinfo_has k db user auth_client scope user_session get_permissions :
  Dict.has k (get_userinfo db user auth_client scope user_session get_permissions)
  = attaches_permissions db user auth_client get_permissions && String.eqb k "permissions"
    || (nonempty (team_map db user scope) && String.eqb k "teams"
    || (grants scope "organizations" && String.eqb k "organizations"
    || (grants scope "phone" && String.eqb k "phone"
    || (grants scope "email" && String.eqb k "email"
    || (bool_decide (is_Some user_session) && String.eqb k "sessionid"
    || (grants scope "id" && Dict.has k (id_fields user))))))).
Proof.
  unfold get_userinfo, attaches_permissions.
  set (u0 := if grants scope "id" then _ else _).
  assert (H0 : Dict.has k u0 = grants scope "id" && Dict.has k (id_fields user)).
  { subst u0. by destruct (grants scope "id"). }
  set (u1 := match user_session with Some _ => _ | None => u0 end).
  assert (H1 : Dict.has k u1
               = bool_decide (is_Some user_session) && String.eqb k "sessionid"
                 || Dict.has k u0).
  { subst u1. destruct user_session; [|done].
    rewrite Dict_has_set, bool_decide_eq_true_2 by eauto. done. }
  set (u2 := if grants scope "email" then _ else u1).
  assert (H2 : Dict.has k u2 = grants scope "email" && String.eqb k "email" || Dict.has k u1)
    by apply Dict_has_set_if.
  set (u3 := if grants scope "phone" then _ else u2).
  assert (H3 : Dict.has k u3 = grants scope "phone" && String.eqb k "phone" || Dict.has k u2)
    by apply Dict_has_set_if.
  set (u4 := if grants scope "organizations" then _ else u3).
  assert (H4 : Dict.has k u4
               = grants scope "organizations" && String.eqb k "organizations"
                 || Dict.has k u3)
    by apply Dict_has_set_if.
  set (u5 := match team_map db user scope with [] => u4 | _ :: _ => _ end).
  assert (H5 : Dict.has k u5
               = nonempty (team_map db user scope) && String.eqb k "teams"
                 || Dict.has k u4).
  { subst u5. destruct (team_map db user scope); [done|]. apply Dict_has_set. }
  rewrite <- H0, <- H1, <- H2, <- H3, <- H4, <- H5.
  destruct get_permissions; [|done].
  destruct (AuthClient.user auth_client); [|apply Dict_has_set].
  destruct (AuthClientUserPermissions_get db auth_client user) as [perms|].
  - rewrite bool_decide_eq_true_2 by eauto. apply Dict_has_set.
  - rewrite bool_decide_eq_false_2; [done|]. by intros [? ?].
Qed.

(** ** C1: scope-gated disclosure *)

Lemma exists_nonempty {A B} (f : A → list B) (l : list A) :
  (∃ x, x ∈ l ∧ f x ≠ []) ↔ ¬ Forall (λ x, f x = []) l.
Proof.
  induction l as [|a l IH].
  - split; [by intros (x & ?%elem_of_nil & _) | intros H; by destruct H].
  - rewrite Forall_cons. split.
    + intros (x & [->|Hx]%elem_of_cons & Hne) [Ha Hl]; [done|].
      apply IH; [eauto | done].
    + intros Hn. destruct (f a) eqn:Ea.
      * destruct IH as [_ IH]. destruct IH as (x & Hx & Hne); [tauto|].
        exists x. split; [by apply elem_of_cons; right | done].
      * exists a. split; [by apply elem_of_cons; left | by rewrite Ea].
Qed.

Lemma get_userinfo_has_topic db user auth_client scope user_session get_permissions
    topic k :
  topic ∈ ["id"; "email"; "phone"; "organizations"] →
  k ∈ topic_keys topic →
  Dict.has k (get_userinfo db user auth_client scope user_session get_permissions)
  = grants scope topic.
Proof.
  intros Ht Hk. rewrite get_userinfo_has.
  repeat (apply elem_of_cons in Ht as [->|Ht]); [..|by apply elem_of_nil in Ht];
    cbn in Hk;
    repeat (apply elem_of_cons in Hk as [->|Hk]); try (by apply elem_of_nil in Hk);
    cbn; by rewrite ?andb_false_r, ?andb_true_r, ?orb_false_r.
Qed.

Lemma get_userinfo_has_teams db user auth_client scope user_session get_permissions :
  Dict.has "teams" (get_userinfo db user auth_client scope user_session get_permissions)
  = nonempty (team_map db user scope).
Proof.
  rewrite get_userinfo_has. cbn.
  by rewrite ?andb_false_r, ?andb_true_r, ?orb_false_r.
Qed.

Lemma get_userinfo_has_mono db user auth_client scope scope' user_session
    get_permissions k :
  scope ⊆ scope' →
  Dict.has k (get_userinfo db user auth_client scope user_session get_permissions) = true →
  Dict.has k (get_userinfo db user auth_client scope' user_session get_permissions) = true.
Proof.
  intros Hsub. rewrite !get_userinfo_has.
  pose proof (team_map_mono db user _ _ Hsub) as Hteams.
  pose proof (λ topic, grants_mono _ _ topic Hsub) as Hg.
  rewrite !orb_true_iff, !andb_true_iff. naive_solver.
Qed.

(** C1, as the code has it. For the topics [id], [email], [phone] and
    [organizations], [get_userinfo] has the keys of the topic exactly when the
    scope contains ["*"], the topic, or the topic followed by ["/*"]. The
    [teams] key is present exactly when the team map is not empty: the scope
    grants [organizations] or [teams] and the user belongs to a team, or the
    scope grants [teams] and an organization the user owns has a team. Adding
    tokens to the scope never removes a key. With scope [["id"]] none of
    [email], [phone], [organizations], [teams] is present; with scope [["*"]]
    [email], [phone] and [organizations] are present, and [teams] is present
    exactly when the user belongs to a team or owns an organization that has
    one. *)
Theorem get_userinfo_disclosure db user auth_client user_session get_permissions :
  let project scope :=
    get_userinfo db user auth_client scope user_session get_permissions in
  (∀ scope topic k,
     topic ∈ ["id"; "email"; "phone"; "organizations"] →
     k ∈ topic_keys topic →
     Dict.has k (project scope) = true
     ↔ "*" ∈ scope ∨ topic ∈ scope ∨ (topic +:+ "/*") ∈ scope)
  ∧ (∀ scope,
       Dict.has "teams" (project scope) = true
       ↔ ((grants scope "organizations" = true ∨ grants scope "teams" = true)
            ∧ User.teams user ≠ [])
         ∨ (grants scope "teams" = true
            ∧ ∃ org, org ∈ User.organizations_owned user
                     ∧ Organization_teams db org ≠ []))
  ∧ (∀ scope scope' k,
       scope ⊆ scope' →
       Dict.has k (project scope) = true → Dict.has k (project scope') = true)
  ∧ (∀ k, k ∈ ["email"; "phone"; "organizations"; "teams"] →
          Dict.has k (project ["id"]) = false)
  ∧ (∀ k, k ∈ ["email"; "phone"; "organizations"] →
          Dict.has k (project ["*"]) = true)
  ∧ (Dict.has "teams" (project ["*"]) = true
     ↔ User.teams user ≠ []
       ∨ ∃ org, org ∈ User.organizations_owned user
                ∧ Organization_teams db org ≠ []).
Proof.
  intros project.
  assert (Hteams : ∀ scope,
    Dict.has "teams" (project scope) = true
    ↔ ((grants scope "organizations" = true ∨ grants scope "teams" = true)
         ∧ User.teams user ≠ [])
      ∨ (grants scope "teams" = true
         ∧ ∃ org, org ∈ User.organizations_owned user
                  ∧ Organization_teams db org ≠ [])).
  { intros scope. subst project. cbv beta.
    rewrite get_userinfo_has_teams, nonempty_true, team_map_nil.
    rewrite exists_nonempty.
    destruct (grants scope "organizations"), (grants scope "teams");
      destruct (decide (User.teams user = []));
      destruct (decide (Forall (λ org, Organization_teams db org = [])
                               (User.organizations_owned user)));
      naive_solver. }
  split_and!.
  - intros scope topic k Ht Hk. subst project. cbv beta.
    rewrite (get_userinfo_has_topic _ _ _ _ _ _ topic) by done.
    apply grants_spec.
  - apply Hteams.
  - intros scope scope' k. apply get_userinfo_has_mono.
  - intros k Hk. subst project. cbv beta. rewrite get_userinfo_has.
    repeat (apply elem_of_cons in Hk as [->|Hk]); [..|by apply elem_of_nil in Hk];
      cbn; by rewrite ?andb_false_r.
  - intros k Hk. subst project. cbv beta. rewrite get_userinfo_has.
    repeat (apply elem_of_cons in Hk as [->|Hk]); [..|by apply elem_of_nil in Hk];
      cbn; by rewrite ?andb_false_r, ?andb_true_r, ?orb_true_r.
  - rewrite Hteams. cbn. naive_solver.
Qed.

Lemma get_userinfo_disclosure_witness :
  ["id"] ⊆ ["id"; "email"]
  ∧ Dict.has "userid"
      (get_userinfo Sample.db Sample.alice Sample.crm ["id"] None true) = true
  ∧ Dict.has "userid"
      (get_userinfo Sample.db Sample.alice Sample.crm ["id"; "email"] None true) = true.
Proof.
  assert (Hsub : ["id"] ⊆ ["id"; "email"]) by set_solver.
  assert (Hin : Dict.has "userid"
      (get_userinfo Sample.db Sample.alice Sample.crm ["id"] None true) = true)
    by (vm_compute; reflexivity).
  split_and!; [exact Hsub | exact Hin |].
  exact (proj1 (proj2 (proj2
    (get_userinfo_disclosure Sample.db Sample.alice Sample.crm None true)))
    ["id"] ["id"; "email"] "userid" Hsub Hin).
Defined.

(** With scope [["*"]] the test for [teams] passes, and yet the projection of
    a user who belongs to no team and owns no organization has no [teams]
    key: line 127 attaches the key only when the team map is not empty. *)
Lemma get_userinfo_star_without_teams :
  grants ["*"] "teams" = true
  ∧ Dict.has "teams"
      (get_userinfo Sample.db Sample.carol Sample.crm ["*"] None true) = false.
Proof. split; vm_compute; reflexivity. Qed.

(** ** C2: the checks of token_verify *)

Lemma falsy_Some_ne s : s ≠ "" → Py.falsy (Some s) = false.
Proof. intros H. by apply String.eqb_neq. Qed.

Ltac view_unfold :=
  unfold token_verify, token_get_scope, token_params, response_of, trace_of,
    mbind, mret, View_bind, View_ret, form_get, current_namespace,
    lookup_token, userinfo_for, current_auth_client.

(** [token_verify] as a decision list over its inputs. *)
Lemma token_verify_cases env :
  let resource := Dict.get "resource" (Env.form env) in
  let token := Dict.get "access_token" (Env.form env) in
  let namespace := AuthClient.namespace (Env.auth_client env) in
  let error e := api_result (StatusStr "error") false [("error", JStr e)] in
  token_verify env =
    if Py.falsy resource then (resource_error "no_resource" None None, [])
    else if negb (String.eqb (default "" resource) "*")
    then (resource_error "unknown_resource" None None, [])
    else if Py.falsy token then (resource_error "no_token" None None, [])
    else if Py.falsy namespace then (error "client_no_resources", [ReadNamespace])
    else
      let trace := [ReadNamespace; TokenLookup (default "" token)] in
      match AuthToken_get (Env.db env) (default "" token) with
      | None => (error "no_token", trace)
      | Some authtoken =>
          if negb (Py.contains ((default "" namespace +:+ ":") +:+ "*")
                     (AuthToken.effective_scope authtoken))
             && negb (Py.contains (default "" namespace +:+ ":*")
                        (AuthToken.effective_scope authtoken))
          then (error "access_denied", trace)
          else (verify_ok env authtoken, trace)
      end.
Proof.
  intros resource token namespace error. view_unfold. fold resource token namespace.
  destruct (Py.falsy resource); [done|].
  destruct (String.eqb (default "" resource) "*") eqn:Er; cbn [negb]; [|done].
  apply String.eqb_eq in Er. rewrite Er.
  destruct (Py.falsy token); [done|]. cbv beta. fold namespace.
  destruct (Py.falsy namespace); [done|]. cbv beta.
  destruct (AuthToken_get _ _) as [authtoken|]; [|done].
  destruct (negb _ && negb _); [done|].
  unfold verify_ok. by destruct (AuthToken.user authtoken).
Qed.

(** The status code of [token_verify] is 400 for the three parameter failures
    and 200 otherwise; the parameter failures leave an empty trace. *)
Lemma token_verify_status env :
  let resource := Dict.get "resource" (Env.form env) in
  let token := Dict.get "access_token" (Env.form env) in
  (Py.falsy resource = true ∨ resource ≠ Some "*" ∨ Py.falsy token = true
   → Response.status_code (response_of token_verify env) = 400%Z
     ∧ trace_of token_verify env = [])
  ∧ (¬ (Py.falsy resource = true ∨ resource ≠ Some "*" ∨ Py.falsy token = true)
     → Response.status_code (response_of token_verify env) = 200%Z).
Proof.
  intros resource token. unfold response_of, trace_of.
  rewrite token_verify_cases. fold resource token.
  destruct resource as [r|]; cbn [Py.falsy default from_option id]; [|naive_solver].
  destruct (String.eqb r "") eqn:E0; [naive_solver|].
  destruct (String.eqb r "*") eqn:E1; cbn [negb].
  2:{ apply String.eqb_neq in E1. split; [intros _; split; reflexivity|].
      intros H. destruct H. naive_solver. }
  apply String.eqb_eq in E1. subst r.
  destruct (Py.falsy token) eqn:Et; [naive_solver|].
  split; [naive_solver|]. intros _.
  destruct (Py.falsy (AuthClient.namespace _)); [reflexivity|].
  destruct (AuthToken_get _ _); [|reflexivity].
  destruct (negb _ && negb _); reflexivity.
Qed.

(** C2. [token_verify] checks, in this order: a missing (absent or empty)
    [resource] fails with [resource_error] code [no_resource]; a resource other
    than ["*"] fails with [unknown_resource]; a missing [access_token] fails
    with [no_token]; a calling client with an absent or empty namespace fails
    with [api_result] code [client_no_resources]; a token string without a
    record fails with code [no_token]; a token whose effective scope contains
    neither [namespace:resource] nor [namespace:*] fails with [access_denied].
    [resource_error] responses have status 400 and the [api_result] errors
    status 200, both with [status] [error] and the code under [error]. The
    response has status 400 exactly for the three parameter failures, and then
    neither the namespace nor the token store has been consulted. *)
Theorem token_verify_check_order env :
  let resource := Dict.get "resource" (Env.form env) in
  let token := Dict.get "access_token" (Env.form env) in
  let namespace := AuthClient.namespace (Env.auth_client env) in
  let failure400 e := (resource_error e None None, @nil event) in
  let failure200 e (trace : list event) :=
    (api_result (StatusStr "error") false [("error", JStr e)], trace) in
  (Py.falsy resource = true → token_verify env = failure400 "no_resource")
  ∧ (∀ r, resource = Some r → r ≠ "" → r ≠ "*" →
          token_verify env = failure400 "unknown_resource")
  ∧ (resource = Some "*" → Py.falsy token = true →
     token_verify env = failure400 "no_token")
  ∧ (∀ tok, resource = Some "*" → token = Some tok → tok ≠ "" →
            Py.falsy namespace = true →
            token_verify env = failure200 "client_no_resources" [ReadNamespace])
  ∧ (∀ tok ns, resource = Some "*" → token = Some tok → tok ≠ "" →
               namespace = Some ns → ns ≠ "" →
               AuthToken_get (Env.db env) tok = None →
               token_verify env
               = failure200 "no_token" [ReadNamespace; TokenLookup tok])
  ∧ (∀ tok ns authtoken,
       resource = Some "*" → token = Some tok → tok ≠ "" →
       namespace = Some ns → ns ≠ "" →
       AuthToken_get (Env.db env) tok = Some authtoken →
       ((ns +:+ ":") +:+ "*") ∉ AuthToken.effective_scope authtoken →
       (ns +:+ ":*") ∉ AuthToken.effective_scope authtoken →
       token_verify env
       = failure200 "access_denied" [ReadNamespace; TokenLookup tok])
  ∧ (∀ e, Response.status_code (fst (failure400 e)) = 400%Z
          ∧ status_of (fst (failure400 e)) = Some (JStr "error")
          ∧ error_code (fst (failure400 e)) = Some (JStr e))
  ∧ (∀ e trace, Response.status_code (fst (failure200 e trace)) = 200%Z
                ∧ status_of (fst (failure200 e trace)) = Some (JStr "error")
                ∧ error_code (fst (failure200 e trace)) = Some (JStr e))
  ∧ (Response.status_code (response_of token_verify env) = 400%Z
     ↔ Py.falsy resource = true ∨ resource ≠ Some "*" ∨ Py.falsy token = true)
  ∧ (Response.status_code (response_of token_verify env) = 400%Z
     → trace_of token_verify env = []).
Proof.
  intros resource token namespace failure400 failure200.
  pose proof (token_verify_cases env) as Hc. cbv zeta in Hc.
  fold resource token namespace in Hc.
  pose proof (token_verify_status env) as [H400 H200]. fold resource token in H400, H200.
  split_and!.
  - intros Hr. by rewrite Hc, Hr.
  - intros r Hr Hne Hstar. rewrite Hc, Hr. cbn [Py.falsy default from_option id].
    apply String.eqb_neq in Hne, Hstar. by rewrite Hne, Hstar.
  - intros Hr Ht. by rewrite Hc, Hr, Ht.
  - intros tok Hr Ht Htok Hns. rewrite Hc, Hr, Ht, Hns.
    by rewrite (falsy_Some_ne tok).
  - intros tok ns Hr Ht Htok Hns Hne Hget.
    rewrite Hc, Hr, Ht, Hns, (falsy_Some_ne tok), (falsy_Some_ne ns) by done.
    cbn [Py.falsy default from_option id String.eqb Ascii.eqb Bool.eqb negb].
    by rewrite Hget.
  - intros tok ns authtoken Hr Ht Htok Hns Hne Hget H1 H2.
    rewrite Hc, Hr, Ht, Hns, (falsy_Some_ne tok), (falsy_Some_ne ns) by done.
    cbn [Py.falsy default from_option id String.eqb Ascii.eqb Bool.eqb negb].
    rewrite Hget. unfold Py.contains. by rewrite !bool_decide_eq_false_2.
  - done.
  - done.
  - split; [|apply H400]. intros Hs.
    destruct (decide (Py.falsy resource = true ∨ resource ≠ Some "*"
                      ∨ Py.falsy token = true)) as [|Hn]; [done|].
    apply H200 in Hn. congruence.
  - intros Hs.
    destruct (decide (Py.falsy resource = true ∨ resource ≠ Some "*"
                      ∨ Py.falsy token = true)) as [Hy|Hn]; [by apply H400|].
    apply H200 in Hn. congruence.
Qed.

Lemma token_verify_check_order_witness :
  token_verify (Sample.call [("access_token", "tok-alice"); ("resource", "*")])
  = (api_result (StatusStr "error") false [("error", JStr "access_denied")],
     [ReadNamespace; TokenLookup "tok-alice"]).
Proof.
  refine (proj1 (proj2 (proj2 (proj2 (proj2 (proj2
    (token_verify_check_order
       (Sample.call [("access_token", "tok-alice"); ("resource", "*")])))))))
    "tok-alice" "crm" Sample.token _ _ _ _ _ _ _ _);
    try reflexivity; try discriminate; vm_compute; set_solver.
Defined.

(** ** C3: the success response of token_verify *)

Lemma append_assoc (a b c : string) : (a +:+ b) +:+ c = a +:+ (b +:+ c).
Proof.
  induction a as [|x a IH]; [done|].
  change (String x ((a +:+ b) +:+ c) = String x (a +:+ (b +:+ c))).
  by rewrite IH.
Qed.

(** The response of [token_verify] once the parameters, the namespace and
    the token lookup are settled. *)
Lemma token_verify_response env tok ns authtoken :
  Dict.get "resource" (Env.form env) = Some "*" →
  Dict.get "access_token" (Env.form env) = Some tok → tok ≠ "" →
  AuthClient.namespace (Env.auth_client env) = Some ns → ns ≠ "" →
  AuthToken_get (Env.db env) tok = Some authtoken →
  response_of token_verify env
  = if Py.contains (ns +:+ ":*") (AuthToken.effective_scope authtoken)
    then verify_ok env authtoken
    else api_result (StatusStr "error") false [("error", JStr "access_denied")].
Proof.
  intros Hr Ht Htok Hns Hne Hget. unfold response_of.
  rewrite token_verify_cases, Hr, Ht, Hns, (falsy_Some_ne tok), (falsy_Some_ne ns)
    by done.
  cbn [Py.falsy default from_option id String.eqb Ascii.eqb Bool.eqb negb].
  rewrite Hget, append_assoc.
  change (":" +:+ "*") with ":*".
  by destruct (Py.contains (ns +:+ ":*") (AuthToken.effective_scope authtoken)).
Qed.

Lemma verify_ok_userinfo env authtoken :
  Dict.get "userinfo" (Response.body (verify_ok env authtoken))
  = (λ user, JDict (get_userinfo (Env.db env) user (Env.auth_client env)
                      (AuthToken.effective_scope authtoken) None true))
    <$> AuthToken.user authtoken.
Proof. unfold verify_ok. by destruct (AuthToken.user authtoken). Qed.

(** C3. When every check of [token_verify] passes, the response has status
    200 and its body has [status] [ok], [validity] 120, a [userinfo] field
    exactly when the token has a user, holding [get_userinfo] of that user
    against the token's effective scope with permissions included, and a
    [clientinfo] field built from the client the token belongs to: title,
    owner buid (twice) and uuid, owner display name, website, client key and
    trusted flag. *)
Theorem token_verify_success env tok ns authtoken :
  Dict.get "resource" (Env.form env) = Some "*" →
  Dict.get "access_token" (Env.form env) = Some tok → tok ≠ "" →
  AuthClient.namespace (Env.auth_client env) = Some ns → ns ≠ "" →
  AuthToken_get (Env.db env) tok = Some authtoken →
  (ns +:+ ":*") ∈ AuthToken.effective_scope authtoken →
  let r := response_of token_verify env in
  let owning := AuthToken.auth_client authtoken in
  Response.status_code r = 200%Z
  ∧ Dict.keys (Response.body r)
    = ["validity"]
      ++ match AuthToken.user authtoken with Some _ => ["userinfo"] | None => [] end
      ++ ["clientinfo"; "status"]
  ∧ Dict.get "status" (Response.body r) = Some (JStr "ok")
  ∧ Dict.get "validity" (Response.body r) = Some (JInt 120)
  ∧ Dict.get "userinfo" (Response.body r)
    = (λ user, JDict (get_userinfo (Env.db env) user (Env.auth_client env)
                        (AuthToken.effective_scope authtoken) None true))
      <$> AuthToken.user authtoken
  ∧ Dict.get "clientinfo" (Response.body r)
    = Some (JDict [("title", JStr (AuthClient.title owning));
                   ("userid", JStr (Owner.buid (AuthClient.owner owning)));
                   ("buid", JStr (Owner.buid (AuthClient.owner owning)));
                   ("uuid", JStr (Owner.uuid (AuthClient.owner owning)));
                   ("owner_title", JStr (Owner.pickername (AuthClient.owner owning)));
                   ("website", JStr (AuthClient.website owning));
                   ("key", JStr (AuthClient.buid owning));
                   ("trusted", JBool (AuthClient.trusted owning))]).
Proof.
  intros Hr Ht Htok Hns Hne Hget Hin r owning. subst r.
  rewrite (token_verify_response env tok ns authtoken) by done.
  apply contains_spec in Hin. rewrite Hin.
  split_and!; [| | | | apply verify_ok_userinfo |];
    unfold verify_ok; by destruct (AuthToken.user authtoken).
Qed.

Lemma token_verify_success_witness :
  let r := response_of token_verify
             (Sample.call [("access_token", "tok-bob"); ("resource", "*")]) in
  Dict.get "validity" (Response.body r) = Some (JInt 120)
  ∧ Dict.get "clientinfo" (Response.body r)
    = Some (JDict [("title", JStr "App");
                   ("userid", JStr "user-alice");
                   ("buid", JStr "user-alice");
                   ("uuid", JStr "uuid-alice");
                   ("owner_title", JStr "Alice (@alice)");
                   ("website", JStr "https://app.example.com");
                   ("key", JStr "client-app");
                   ("trusted", JBool true)]).
Proof.
  assert (Hin : ("crm" +:+ ":*") ∈ AuthToken.effective_scope Sample.token_bob)
    by (vm_compute; set_solver).
  pose proof (token_verify_success
    (Sample.call [("access_token", "tok-bob"); ("resource", "*")])
    "tok-bob" "crm" Sample.token_bob eq_refl eq_refl ltac:(discriminate)
    eq_refl ltac:(discriminate) eq_refl Hin) as H.
  cbv zeta in H. destruct H as (_ & _ & _ & Hv & _ & Hc).
  split; [exact Hv | exact Hc].
Defined.

(** ** C4: token_get_scope *)

Lemma append_cons (x : ascii) (a b : string) :
  String x a +:+ b = String x (a +:+ b).
Proof. done. Qed.

Lemma startswith_app p r : Py.startswith (p +:+ r) p = true.
Proof.
  unfold Py.startswith. induction p as [|x p IH]; [by destruct r|].
  rewrite append_cons. cbn. by destruct (Ascii.ascii_dec x x).
Qed.

Lemma slice_from_app p r : Py.slice_from (String.length p) (p +:+ r) = r.
Proof. induction p as [|x p IH]; [done|]. by rewrite append_cons. Qed.

Lemma startswith_slice item p :
  Py.startswith item p = true →
  p +:+ Py.slice_from (String.length p) item = item.
Proof.
  unfold Py.startswith. revert item.
  induction p as [|x p IH]; intros item H; [done|].
  destruct item as [|y item]; [done|]. cbn in H.
  destruct (Ascii.ascii_dec x y) as [->|]; [|done].
  rewrite append_cons. cbn. by rewrite IH.
Qed.

Lemma client_resources_of_omap nsprefix scope :
  client_resources_of nsprefix scope = omap (strip_prefix nsprefix) scope.
Proof.
  unfold client_resources_of.
  enough (∀ acc,
    foldl (λ client_resources item,
             if Py.startswith item nsprefix
             then client_resources ++ [Py.slice_from (String.length nsprefix) item]
             else client_resources) acc scope
    = acc ++ omap (strip_prefix nsprefix) scope) as H by apply (H []).
  induction scope as [|item scope IH]; intros acc; cbn.
  - by rewrite app_nil_r.
  - rewrite IH. unfold strip_prefix at 2.
    destruct (Py.startswith item nsprefix); [|done]. by rewrite <- app_assoc.
Qed.

Lemma strip_prefix_Some nsprefix item suffix :
  strip_prefix nsprefix item = Some suffix ↔ item = nsprefix +:+ suffix.
Proof.
  unfold strip_prefix. split.
  - destruct (Py.startswith item nsprefix) eqn:E; [|done].
    intros [= <-]. by rewrite startswith_slice.
  - intros ->. by rewrite startswith_app, slice_from_app.
Qed.

Lemma client_resources_of_elem nsprefix scope suffix :
  suffix ∈ client_resources_of nsprefix scope ↔ (nsprefix +:+ suffix) ∈ scope.
Proof.
  rewrite client_resources_of_omap, list_elem_of_omap. split.
  - intros (item & Hin & ->%strip_prefix_Some). done.
  - intros Hin. eexists. split; [done|]. by apply strip_prefix_Some.
Qed.

Lemma client_resources_of_filter nsprefix scope :
  map (λ suffix, nsprefix +:+ suffix) (client_resources_of nsprefix scope)
  = filter (λ item, Py.startswith item nsprefix = true) scope.
Proof.
  rewrite client_resources_of_omap.
  induction scope as [|item scope IH]; [done|].
  rewrite filter_cons. cbn -[filter]. unfold strip_prefix at 1.
  destruct (Py.startswith item nsprefix) eqn:E.
  - rewrite decide_True by done. cbn. by rewrite IH, startswith_slice.
  - by rewrite decide_False by done.
Qed.

(** [token_get_scope] as a decision list over its inputs. *)
Lemma token_get_scope_cases env :
  let token := Dict.get "access_token" (Env.form env) in
  let namespace := AuthClient.namespace (Env.auth_client env) in
  let error e := api_result (StatusStr "error") false [("error", JStr e)] in
  token_get_scope env =
    if Py.falsy token then (resource_error "no_token" None None, [])
    else if Py.falsy namespace then (error "client_no_resources", [ReadNamespace])
    else
      let trace := [ReadNamespace; TokenLookup (default "" token)] in
      match AuthToken_get (Env.db env) (default "" token) with
      | None => (error "no_token", trace)
      | Some authtoken =>
          let client_resources :=
            client_resources_of (default "" namespace +:+ ":")
              (AuthToken.effective_scope authtoken) in
          match client_resources with
          | [] => (error "no_access", trace)
          | _ :: _ => (get_scope_ok env authtoken client_resources, trace)
          end
      end.
Proof.
  intros token namespace error. view_unfold. fold token.
  destruct (Py.falsy token); [done|]. cbv beta. fold namespace.
  destruct (Py.falsy namespace); [done|]. cbv beta zeta.
  destruct (AuthToken_get _ _) as [authtoken|]; [|done].
  destruct (client_resources_of _ _); [done|].
  unfold get_scope_ok. by destruct (AuthToken.user authtoken).
Qed.

(** The response of [token_get_scope] once the token parameter, the
    namespace and the token lookup are settled. *)
Lemma token_get_scope_response env tok ns authtoken :
  Dict.get "access_token" (Env.form env) = Some tok → tok ≠ "" →
  AuthClient.namespace (Env.auth_client env) = Some ns → ns ≠ "" →
  AuthToken_get (Env.db env) tok = Some authtoken →
  let resources :=
    client_resources_of (ns +:+ ":") (AuthToken.effective_scope authtoken) in
  response_of token_get_scope env
  = match resources with
    | [] => api_result (StatusStr "error") false [("error", JStr "no_access")]
    | _ :: _ => get_scope_ok env authtoken resources
    end.
Proof.
  intros Ht Htok Hns Hne Hget resources. subst resources. unfold response_of.
  rewrite token_get_scope_cases, Ht, Hns, (falsy_Some_ne tok), (falsy_Some_ne ns)
    by done.
  cbn [Py.falsy default from_option id]. rewrite Hget. cbv zeta.
  by destruct (client_resources_of _ _).
Qed.

(** The success response of [token_get_scope] against that of [token_verify]. *)
Lemma get_scope_ok_fields env authtoken resources :
  let body := Response.body (get_scope_ok env authtoken resources) in
  Response.status_code (get_scope_ok env authtoken resources) = 200%Z
  ∧ Dict.keys body = Dict.keys (Response.body (verify_ok env authtoken))
  ∧ (∀ k, k ≠ "clientinfo" →
          Dict.get k body = Dict.get k (Response.body (verify_ok env authtoken)))
  ∧ Dict.get "status" body = Some (JStr "ok")
  ∧ Dict.get "validity" body = Some (JInt 120)
  ∧ Dict.get "clientinfo" body
    = Some (JDict (clientinfo authtoken ++ [("scope", JList (map JStr resources))]))
  ∧ Dict.get "scope" body = None.
Proof.
  unfold get_scope_ok, verify_ok.
  destruct (AuthToken.user authtoken); split_and!; try reflexivity;
    intros k Hk; unfold api_result; cbn [Response.body];
    (destruct (decide ("status" = k)) as [<-|Hs];
      [by rewrite !Dict_get_set_eq|]);
    rewrite !(Dict_get_set_ne "status") by done;
    by rewrite !(Dict_get_set_ne "clientinfo") by done.
Qed.

(** C4, as the code has it. After the token-presence, namespace and
    token-lookup checks,
    [token_get_scope] computes the list of the suffixes [r] such that
    [namespace + ":" + r] is an element of the token's effective scope, in the
    order of the scope and with the prefix stripped. When the list is empty
    the response is the [api_result] error [no_access]. Otherwise the response
    has status 200 and agrees with the success response of [token_verify] on
    [status], [validity] and [userinfo]; its [clientinfo] is that of
    [token_verify] followed by the key [scope], which holds the computed
    list; the body has no [scope] key of its own. *)
Theorem token_get_scope_resources env tok ns authtoken :
  Dict.get "access_token" (Env.form env) = Some tok → tok ≠ "" →
  AuthClient.namespace (Env.auth_client env) = Some ns → ns ≠ "" →
  AuthToken_get (Env.db env) tok = Some authtoken →
  let scope := AuthToken.effective_scope authtoken in
  let resources := client_resources_of (ns +:+ ":") scope in
  let r := response_of token_get_scope env in
  (∀ suffix, suffix ∈ resources ↔ ((ns +:+ ":") +:+ suffix) ∈ scope)
  ∧ map (λ suffix, (ns +:+ ":") +:+ suffix) resources
    = filter (λ item, Py.startswith item (ns +:+ ":") = true) scope
  ∧ (resources = [] →
     r = api_result (StatusStr "error") false [("error", JStr "no_access")])
  ∧ (resources ≠ [] →
     Response.status_code r = 200%Z
     ∧ Dict.keys (Response.body r) = Dict.keys (Response.body (verify_ok env authtoken))
     ∧ (∀ k, k ≠ "clientinfo" →
             Dict.get k (Response.body r)
             = Dict.get k (Response.body (verify_ok env authtoken)))
     ∧ Dict.get "status" (Response.body r) = Some (JStr "ok")
     ∧ Dict.get "validity" (Response.body r) = Some (JInt 120)
     ∧ Dict.get "clientinfo" (Response.body r)
       = Some (JDict (clientinfo authtoken
                        ++ [("scope", JList (map JStr resources))]))
     ∧ Dict.get "scope" (Response.body r) = None).
Proof.
  intros Ht Htok Hns Hne Hget scope resources r.
  pose proof (token_get_scope_response env tok ns authtoken Ht Htok Hns Hne Hget)
    as Hr.
  cbv zeta in Hr. fold scope resources r in Hr.
  split_and!.
  - intros suffix. apply client_resources_of_elem.
  - apply client_resources_of_filter.
  - intros He. by rewrite Hr, He.
  - intros Hn. destruct resources as [|x l] eqn:E; [done|]. rewrite Hr.
    apply get_scope_ok_fields.
Qed.

Lemma token_get_scope_resources_witness :
  Dict.get "clientinfo"
    (Response.body (response_of token_get_scope
       (Sample.call [("access_token", "tok-alice")])))
  = Some (JDict (clientinfo Sample.token
                   ++ [("scope", JList [JStr "contacts"; JStr "deals"])])).
Proof.
  pose proof (token_get_scope_resources
    (Sample.call [("access_token", "tok-alice")])
    "tok-alice" "crm" Sample.token eq_refl ltac:(discriminate)
    eq_refl ltac:(discriminate) eq_refl) as H.
  cbv zeta in H. destruct H as (_ & _ & _ & H).
  destruct H as (_ & _ & _ & _ & _ & Hc & _); [by vm_compute|].
  exact Hc.
Defined.

(** The successful response for the token of alice has no [scope] key in its
    body: the list is inside [clientinfo] (line 284), which therefore is not
    the [clientinfo] that [token_verify] builds for the same token. *)
Lemma token_get_scope_scope_inside_clientinfo :
  let r := response_of token_get_scope
             (Sample.call [("access_token", "tok-alice")]) in
  status_of r = Some (JStr "ok")
  ∧ Dict.has "scope" (Response.body r) = false
  ∧ Dict.get "clientinfo" (Response.body r) ≠ Some (JDict (clientinfo Sample.token))
  ∧ Dict.get "clientinfo" (Response.body r) ≫= json_get "scope"
    = Some (JList [JStr "contacts"; JStr "deals"]).
Proof. split_and!; vm_compute; (reflexivity || discriminate). Qed.

(** ** C7: token_verify needs the namespace wildcard *)

(** C7. With resource ["*"] (the only one accepted) and the other checks
    passed, [token_verify] succeeds exactly when [namespace:*] is in the
    token's effective scope, and fails with [access_denied] otherwise. So for
    a token whose scope has an entry [namespace:suffix] but not [namespace:*],
    [token_verify] fails with [access_denied] while [token_get_scope], for the
    same token and calling client, succeeds and lists that suffix (with all
    the suffixes under the namespace) under [scope]. *)
Theorem token_verify_needs_wildcard env tok ns authtoken :
  Dict.get "resource" (Env.form env) = Some "*" →
  Dict.get "access_token" (Env.form env) = Some tok → tok ≠ "" →
  AuthClient.namespace (Env.auth_client env) = Some ns → ns ≠ "" →
  AuthToken_get (Env.db env) tok = Some authtoken →
  let scope := AuthToken.effective_scope authtoken in
  let denied :=
    api_result (StatusStr "error") false [("error", JStr "access_denied")] in
  ((ns +:+ ":*") ∈ scope ↔ status_of (response_of token_verify env) = Some (JStr "ok"))
  ∧ ((ns +:+ ":*") ∉ scope ↔ response_of token_verify env = denied)
  ∧ (∀ suffix,
       ((ns +:+ ":") +:+ suffix) ∈ scope → (ns +:+ ":*") ∉ scope →
       let reply := response_of token_get_scope env in
       let resources := client_resources_of (ns +:+ ":") scope in
       response_of token_verify env = denied
       ∧ Response.status_code reply = 200%Z
       ∧ status_of reply = Some (JStr "ok")
       ∧ Dict.get "clientinfo" (Response.body reply) ≫= json_get "scope"
         = Some (JList (map JStr resources))
       ∧ suffix ∈ resources
       ∧ "*" ∉ resources).
Proof.
  intros Hr Ht Htok Hns Hne Hget scope denied.
  pose proof (token_verify_response env tok ns authtoken Hr Ht Htok Hns Hne Hget)
    as Hv.
  fold scope denied in Hv.
  assert (Hyes : (ns +:+ ":*") ∈ scope
                 ↔ status_of (response_of token_verify env) = Some (JStr "ok")).
  { rewrite Hv, <- contains_spec.
    destruct (Py.contains (ns +:+ ":*") scope); [|done].
    split; [intros _|done]. unfold verify_ok.
    by destruct (AuthToken.user authtoken). }
  assert (Hno : (ns +:+ ":*") ∉ scope ↔ response_of token_verify env = denied).
  { split.
    - intros Hn. rewrite Hv. unfold Py.contains. by rewrite bool_decide_eq_false_2.
    - intros Hd Hin. apply Hyes in Hin. by rewrite Hd in Hin. }
  split_and!; [done..|].
  intros suffix Hin Hnot reply resources.
  pose proof (token_get_scope_response env tok ns authtoken Ht Htok Hns Hne Hget)
    as Hg.
  cbv zeta in Hg. fold scope resources reply in Hg.
  assert (Hs : suffix ∈ resources) by by apply client_resources_of_elem.
  assert (Hstar : "*" ∉ resources).
  { intros H%client_resources_of_elem. by rewrite append_assoc in H. }
  destruct (get_scope_ok_fields env authtoken resources)
    as (Hcode & _ & _ & Hstatus & _ & Hci & _).
  clearbody resources reply.
  destruct resources as [|x l]; [by apply elem_of_nil in Hs|]. subst reply.
  split_and!; [by apply Hno | done | done | by rewrite Hci | done | done].
Qed.

Lemma token_verify_needs_wildcard_witness :
  let env := Sample.call [("access_token", "tok-alice"); ("resource", "*")] in
  error_code (response_of token_verify env) = Some (JStr "access_denied")
  ∧ Dict.get "clientinfo" (Response.body (response_of token_get_scope env))
      ≫= json_get "scope"
    = Some (JList [JStr "contacts"; JStr "deals"]).
Proof.
  intros env.
  assert (Hin : (("crm" +:+ ":") +:+ "contacts") ∈ AuthToken.effective_scope Sample.token)
    by (vm_compute; set_solver).
  assert (Hnot : ("crm" +:+ ":*") ∉ AuthToken.effective_scope Sample.token)
    by (vm_compute; set_solver).
  pose proof (token_verify_needs_wildcard env "tok-alice" "crm" Sample.token
    eq_refl eq_refl ltac:(discriminate) eq_refl ltac:(discriminate) eq_refl) as H.
  cbv zeta in H. destruct H as (_ & _ & H).
  destruct (H "contacts" Hin Hnot) as (Hd & _ & _ & Hs & _).
  split; [by rewrite Hd | exact Hs].
Defined.

(** ** C5: permission resolution *)

Lemma get_userinfo_permissions db user auth_client scope user_session :
  Dict.get "permissions" (get_userinfo db user auth_client scope user_session true)
  = (λ l, JList (map JStr l)) <$> permissions_for db auth_client user.
Proof.
  pose proof (get_userinfo_has "permissions" db user auth_client scope
                user_session false) as Hno.
  cbn in Hno. rewrite !andb_false_r in Hno. cbn in Hno.
  unfold Dict.has in Hno.
  unfold permissions_for. unfold get_userinfo in *.
  destruct (AuthClient.user auth_client); [|by rewrite Dict_get_set_eq].
  destruct (AuthClientUserPermissions_get db auth_client user) as [perms|]; cbn.
  - by rewrite Dict_get_set_eq.
  - by destruct (Dict.get "permissions" _).
Qed.

Lemma elem_of_sorted (s : gset string) p : p ∈ Py.sorted s ↔ p ∈ s.
Proof. unfold Py.sorted. by rewrite merge_sort_Permutation, elem_of_elements. Qed.

Lemma sorted_Sorted (s : gset string) : Sorted String.le (Py.sorted s).
Proof. unfold Py.sorted. apply Sorted_merge_sort. apply _. Qed.

Lemma sorted_NoDup (s : gset string) : NoDup (Py.sorted s).
Proof. unfold Py.sorted. rewrite merge_sort_Permutation. apply NoDup_elements. Qed.

Lemma elem_of_permsset (perms : list AuthClientTeamPermissions.t)
    (acc : gset string) p :
  p ∈ foldl (λ permsset permob,
               permsset ∪ list_to_set
                 (Py.split " " (AuthClientTeamPermissions.access_permissions permob)))
            acc perms
  ↔ p ∈ acc
    ∨ ∃ permob, permob ∈ perms
        ∧ p ∈ Py.split " " (AuthClientTeamPermissions.access_permissions permob).
Proof.
  revert acc. induction perms as [|permob perms IH]; intros acc; cbn.
  - split; [auto|]. by intros [?|(? & ?%elem_of_nil & _)].
  - rewrite IH, elem_of_union, elem_of_list_to_set. split.
    + intros [[?|?]|(q & ? & ?)]; [by left | right; exists permob | right; exists q];
        (split; [|done]); apply elem_of_cons; auto.
    + intros [?|(q & [->|?]%elem_of_cons & ?)]; [auto | auto |].
      right. by exists q.
Qed.

(** The permissions granted through teams are the strings of the grants to
    this client for the teams of the user. *)
Lemma elem_of_team_permissions db auth_client user p :
  p ∈ team_permissions db auth_client user
  ↔ ∃ permob,
      permob ∈ Db.auth_client_team_permissions db
      ∧ AuthClientTeamPermissions.auth_client_id permob = AuthClient.id auth_client
      ∧ AuthClientTeamPermissions.team_id permob ∈ map Team.id (User.teams user)
      ∧ p ∈ Py.split " " (AuthClientTeamPermissions.access_permissions permob).
Proof.
  unfold team_permissions. rewrite elem_of_sorted.
  destruct (User.teams user) as [|team teams] eqn:E.
  - split; [by intros ?%not_elem_of_empty|].
    by intros (? & _ & _ & ?%elem_of_nil & _).
  - rewrite elem_of_permsset. unfold AuthClientTeamPermissions_all_for.
    rewrite E. split.
    + intros [?%not_elem_of_empty|(permob & Hin & Hp)]; [done|].
      apply list_elem_of_filter in Hin as [[? ?] ?]. by exists permob.
    + intros (permob & Hin & Hc & Ht & Hp). right. exists permob.
      split; [|done]. by apply list_elem_of_filter.
Qed.

Lemma team_permissions_unique db auth_client user db' auth_client' user' :
  (∀ p, p ∈ team_permissions db auth_client user
        ↔ p ∈ team_permissions db' auth_client' user') →
  team_permissions db auth_client user = team_permissions db' auth_client' user'.
Proof.
  intros H. unfold team_permissions in *. f_equal. apply set_eq. intros p.
  specialize (H p). by rewrite !elem_of_sorted in H.
Qed.

(** C5, as the code has it. With [get_permissions] set the resolution is a
    total function of the grants. For a user-owned client the [permissions]
    field is the access-permission string of the direct (client, user) grant
    split at single spaces, and when there is no grant record the field is
    absent. For any other client the field is always present and holds the
    sorted, duplicate-free list of the strings of every (client, team) grant
    over the teams the user belongs to; the list is the same whatever the
    order of the teams and of the grant rows. *)
Theorem get_userinfo_permission_resolution db user auth_client scope user_session :
  let permissions :=
    Dict.get "permissions"
      (get_userinfo db user auth_client scope user_session true) in
  (∀ owner perms,
     AuthClient.user auth_client = Some owner →
     AuthClientUserPermissions_get db auth_client user = Some perms →
     permissions
     = Some (JList (map JStr
         (Py.split " " (AuthClientUserPermissions.access_permissions perms)))))
  ∧ (∀ owner,
       AuthClient.user auth_client = Some owner →
       AuthClientUserPermissions_get db auth_client user = None →
       permissions = None)
  ∧ (AuthClient.user auth_client = None →
     let result := team_permissions db auth_client user in
     permissions = Some (JList (map JStr result))
     ∧ Sorted String.le result
     ∧ NoDup result
     ∧ (∀ p, p ∈ result
             ↔ ∃ permob,
                 permob ∈ Db.auth_client_team_permissions db
                 ∧ AuthClientTeamPermissions.auth_client_id permob
                   = AuthClient.id auth_client
                 ∧ AuthClientTeamPermissions.team_id permob
                   ∈ map Team.id (User.teams user)
                 ∧ p ∈ Py.split " "
                       (AuthClientTeamPermissions.access_permissions permob))
     ∧ (∀ db' user',
          User.teams user' ≡ₚ User.teams user →
          Db.auth_client_team_permissions db'
            ≡ₚ Db.auth_client_team_permissions db →
          team_permissions db' auth_client user' = result)).
Proof.
  intros permissions. subst permissions. rewrite get_userinfo_permissions.
  unfold permissions_for. split_and!.
  - intros owner perms -> ->. done.
  - intros owner -> ->. done.
  - intros ->. cbv zeta. split_and!.
    + done.
    + unfold team_permissions. apply sorted_Sorted.
    + unfold team_permissions. apply sorted_NoDup.
    + apply elem_of_team_permissions.
    + intros db' user' Hteams Hrows. apply team_permissions_unique. intros p.
      rewrite !elem_of_team_permissions.
      by setoid_rewrite Hteams; setoid_rewrite Hrows.
Qed.

Lemma get_userinfo_permission_resolution_witness :
  Dict.get "permissions"
    (get_userinfo Sample.db Sample.alice Sample.crm ["id"] None true)
  = Some (JList [JStr "contacts"; JStr "deals"]).
Proof.
  pose proof (get_userinfo_permission_resolution
    Sample.db Sample.alice Sample.crm ["id"] None) as H.
  cbv zeta in H. destruct H as (_ & _ & H).
  destruct (H eq_refl) as (Hp & _). rewrite Hp. vm_compute. reflexivity.
Defined.

(** [app] is owned by alice and has no grant record for bob: the projection
    of bob for [app] has no [permissions] field at all, rather than an empty
    list (line 133 attaches the field only when a record was found). *)
Lemma get_userinfo_no_grant_no_permissions :
  AuthClient.user Sample.app = Some 1
  ∧ AuthClientUserPermissions_get Sample.db Sample.app Sample.bob = None
  ∧ Dict.has "permissions"
      (get_userinfo Sample.db Sample.bob Sample.app ["id"] None true) = false
  ∧ Dict.get "permissions"
      (get_userinfo Sample.db Sample.bob Sample.app ["id"] None true)
    ≠ Some (JList []).
Proof. split_and!; vm_compute; (reflexivity || discriminate). Qed.

(** ** C8: permissions are those of the calling client *)

(** C8. In the success responses of [token_verify] and [token_get_scope] the
    [permissions] of [userinfo] are resolved for the calling client (its
    direct grant for the token's user when the caller is user-owned, its team
    grants otherwise), whatever client the token belongs to, while [clientinfo]
    carries the key of the client the token belongs to. *)
Theorem token_permissions_of_caller env tok ns authtoken user :
  Dict.get "access_token" (Env.form env) = Some tok → tok ≠ "" →
  AuthClient.namespace (Env.auth_client env) = Some ns → ns ≠ "" →
  AuthToken_get (Env.db env) tok = Some authtoken →
  AuthToken.user authtoken = Some user →
  let caller := Env.auth_client env in
  let scope := AuthToken.effective_scope authtoken in
  let of_caller :=
    (λ l, JList (map JStr l)) <$> permissions_for (Env.db env) caller user in
  let key_of_owning := Some (JStr (AuthClient.buid (AuthToken.auth_client authtoken))) in
  (Dict.get "resource" (Env.form env) = Some "*" → (ns +:+ ":*") ∈ scope →
   let body := Response.body (response_of token_verify env) in
   Dict.get "userinfo" body
   = Some (JDict (get_userinfo (Env.db env) user caller scope None true))
   ∧ Dict.get "userinfo" body ≫= json_get "permissions" = of_caller
   ∧ Dict.get "clientinfo" body ≫= json_get "key" = key_of_owning)
  ∧ (client_resources_of (ns +:+ ":") scope ≠ [] →
     let body := Response.body (response_of token_get_scope env) in
     Dict.get "userinfo" body
     = Some (JDict (get_userinfo (Env.db env) user caller scope None true))
     ∧ Dict.get "userinfo" body ≫= json_get "permissions" = of_caller
     ∧ Dict.get "clientinfo" body ≫= json_get "key" = key_of_owning).
Proof.
  intros Ht Htok Hns Hne Hget Huser caller scope of_caller key_of_owning.
  assert (Hverify : Dict.get "resource" (Env.form env) = Some "*" →
            (ns +:+ ":*") ∈ scope →
            Dict.get "userinfo" (Response.body (response_of token_verify env))
            = Some (JDict (get_userinfo (Env.db env) user caller scope None true))
            ∧ Dict.get "clientinfo" (Response.body (response_of token_verify env))
                ≫= json_get "key" = key_of_owning).
  { intros Hr Hin.
    rewrite (token_verify_response env tok ns authtoken) by done.
    apply contains_spec in Hin. fold scope. rewrite Hin.
    rewrite verify_ok_userinfo, Huser. split; [done|].
    unfold verify_ok. by destruct (AuthToken.user authtoken). }
  assert (Hscope : client_resources_of (ns +:+ ":") scope ≠ [] →
            Dict.get "userinfo" (Response.body (response_of token_get_scope env))
            = Some (JDict (get_userinfo (Env.db env) user caller scope None true))
            ∧ Dict.get "clientinfo" (Response.body (response_of token_get_scope env))
                ≫= json_get "key" = key_of_owning).
  { intros Hres.
    pose proof (token_get_scope_response env tok ns authtoken Ht Htok Hns Hne Hget)
      as Hg.
    cbv zeta in Hg. fold scope in Hg.
    destruct (client_resources_of (ns +:+ ":") scope) as [|x l] eqn:E; [done|].
    rewrite Hg.
    destruct (get_scope_ok_fields env authtoken (x :: l))
      as (_ & _ & Hsame & _ & _ & Hc & _).
    rewrite Hsame, Hc by done. rewrite verify_ok_userinfo, Huser. done. }
  split.
  - intros Hr Hin body. destruct (Hverify Hr Hin) as [Hu Hc].
    subst body. rewrite Hu. split_and!; [done | | done].
    cbn [mbind option_bind json_get]. apply get_userinfo_permissions.
  - intros Hres body. destruct (Hscope Hres) as [Hu Hc].
    subst body. rewrite Hu. split_and!; [done | | done].
    cbn [mbind option_bind json_get]. apply get_userinfo_permissions.
Qed.

(** The token of bob belongs to [app], which has no grant for bob; the call
    is made by [crm], which grants [admin contacts] to the owners team. *)
Lemma token_permissions_of_caller_witness :
  let env := Sample.call [("access_token", "tok-bob"); ("resource", "*")] in
  Dict.get "userinfo" (Response.body (response_of token_verify env))
    ≫= json_get "permissions"
  = Some (JList [JStr "admin"; JStr "contacts"])
  ∧ permissions_for Sample.db Sample.app Sample.bob = None
  ∧ Dict.get "clientinfo" (Response.body (response_of token_verify env))
      ≫= json_get "key"
    = Some (JStr "client-app").
Proof.
  intros env.
  assert (Hin : ("crm" +:+ ":*") ∈ AuthToken.effective_scope Sample.token_bob)
    by (vm_compute; set_solver).
  pose proof (token_permissions_of_caller env "tok-bob" "crm" Sample.token_bob
    Sample.bob eq_refl ltac:(discriminate) eq_refl ltac:(discriminate)
    eq_refl eq_refl) as H.
  cbv zeta in H. destruct H as [H _].
  destruct (H eq_refl Hin) as (_ & Hp & Hk).
  split_and!; [rewrite Hp; vm_compute; reflexivity | vm_compute; reflexivity | exact Hk].
Defined.

(** ** C6: the entries of the team list *)

Lemma Dict_set_Forall {V} (P : string * V → Prop) k v (d : Dict.t V) :
  Forall P d → P (k, v) → Forall P (Dict.set k v d).
Proof.
  intros Hd Hkv. induction Hd as [|[k' v'] d Hx Hd IH]; cbn.
  - by constructor.
  - destruct (String.eqb k k'); by constructor.
Qed.

Lemma Dict_get_elem {V} k (v : V) (d : Dict.t V) :
  Dict.get k d = Some v → (k, v) ∈ d.
Proof.
  induction d as [|[k' v'] d IH]; cbn; [done|].
  destruct (String.eqb k k') eqn:E.
  - apply String.eqb_eq in E. intros [= ->]. subst. by left.
  - intros H. right. by apply IH.
Qed.

Lemma foldl_invariant {S X} (f : S → X → S) (I : S → Prop) (Q : X → Prop) :
  (∀ s x, Q x → I s → I (f s x)) →
  ∀ l s, Forall Q l → I s → I (foldl f s l).
Proof.
  intros Hstep l. induction l as [|x l IH]; intros s Hl Hs; [done|].
  apply Forall_cons in Hl as [Hx Hl]. cbn. apply IH; [done|]. by apply Hstep.
Qed.

Lemma foldl_has {V X} (f : Dict.t V → X → Dict.t V) (key : X → string) :
  (∀ d x k, Dict.has k d = true → Dict.has k (f d x) = true) →
  (∀ d x, Dict.has (key x) (f d x) = true) →
  ∀ l d k, Dict.has k d = true ∨ (∃ x, x ∈ l ∧ key x = k) →
           Dict.has k (foldl f d l) = true.
Proof.
  intros Hkeep Hadd l. induction l as [|x l IH]; intros d k H; cbn.
  - destruct H as [H|(x & ?%elem_of_nil & _)]; done.
  - apply IH. destruct H as [H|(y & [->|Hy]%elem_of_cons & <-)].
    + left. by apply Hkeep.
    + left. apply Hadd.
    + right. by exists y.
Qed.

Lemma teams_of_user_entries db user :
  NoDup (Dict.keys (teams_of_user user []))
  ∧ Forall (team_entry_of db user) (teams_of_user user []).
Proof.
  unfold teams_of_user.
  apply (foldl_invariant _
           (λ d, NoDup (Dict.keys d) ∧ Forall (team_entry_of db user) d)
           (λ team, team ∈ User.teams user)).
  - intros d team Hin [Hnd Hall]. split.
    + by apply Dict_keys_set_NoDup.
    + apply Dict_set_Forall; [done|]. by exists team, true.
  - by apply Forall_forall.
  - split; constructor.
Qed.

Lemma teams_of_user_has user team :
  team ∈ User.teams user →
  Dict.has (Team.buid team) (teams_of_user user []) = true.
Proof.
  intros Hin. unfold teams_of_user.
  apply (foldl_has _ Team.buid).
  - intros d x k Hk. by rewrite Dict_has_set, Hk, orb_true_r.
  - intros d x. by rewrite Dict_has_set, String.eqb_refl.
  - right. by exists team.
Qed.

Lemma teams_of_user_ok db user : team_map_ok db user (teams_of_user user []).
Proof.
  destruct (teams_of_user_entries db user) as [Hnd Hall].
  split_and!; [done | done |]. apply teams_of_user_has.
Qed.

Lemma teams_of_org_ok db user org teams :
  org ∈ User.organizations_owned user →
  team_map_ok db user teams →
  team_map_ok db user (teams_of_org (Organization_teams db org) teams).
Proof.
  intros Horg. unfold teams_of_org.
  apply (foldl_invariant _ (team_map_ok db user)
           (λ team, team ∈ Organization_teams db org)); [|by apply Forall_forall].
  intros d team Hin (Hnd & Hall & Hcover).
  destruct (Dict.has (Team.buid team) d) eqn:E; [done|].
  split_and!.
  - by apply Dict_keys_set_NoDup.
  - apply Dict_set_Forall; [done|]. exists team, false.
    split_and!; [done | by exists org |].
    intros (t & Hb & Ht)%list_elem_of_fmap. apply Hcover in Ht.
    rewrite <- Hb in Ht. congruence.
  - intros t Ht. by rewrite Dict_has_set, (Hcover t Ht), orb_true_r.
Qed.

Lemma teams_of_owned_ok db user teams :
  team_map_ok db user teams → team_map_ok db user (teams_of_owned db user teams).
Proof.
  unfold teams_of_owned.
  apply (foldl_invariant _ (team_map_ok db user)
           (λ org, org ∈ User.organizations_owned user)); [|by apply Forall_forall].
  intros d org Horg Hd. by apply teams_of_org_ok.
Qed.

Lemma teams_of_org_keeps org_teams teams k :
  Dict.has k teams = true → Dict.has k (teams_of_org org_teams teams) = true.
Proof.
  intros H. unfold teams_of_org. apply (foldl_has _ Team.buid); [| |by left].
  - intros d x k' Hk. destruct (Dict.has (Team.buid x) d); [done|].
    by rewrite Dict_has_set, Hk, orb_true_r.
  - intros d x. destruct (Dict.has (Team.buid x) d) eqn:E; [done|].
    by rewrite Dict_has_set, String.eqb_refl.
Qed.

Lemma teams_of_org_has org_teams teams team :
  team ∈ org_teams →
  Dict.has (Team.buid team) (teams_of_org org_teams teams) = true.
Proof.
  intros H. unfold teams_of_org. apply (foldl_has _ Team.buid).
  - intros d x k' Hk. destruct (Dict.has (Team.buid x) d); [done|].
    by rewrite Dict_has_set, Hk, orb_true_r.
  - intros d x. destruct (Dict.has (Team.buid x) d) eqn:E; [done|].
    by rewrite Dict_has_set, String.eqb_refl.
  - right. by exists team.
Qed.

Lemma teams_of_owned_has db user teams org team :
  org ∈ User.organizations_owned user →
  team ∈ Organization_teams db org →
  Dict.has (Team.buid team) (teams_of_owned db user teams) = true.
Proof.
  intros Horg Hteam. unfold teams_of_owned. revert teams.
  induction (User.organizations_owned user) as [|x l IH]; intros teams.
  - by apply elem_of_nil in Horg.
  - cbn. apply elem_of_cons in Horg as [<-|Horg]; [|by apply IH].
    apply (foldl_invariant _ (λ d, Dict.has (Team.buid team) d = true) (λ _, True)).
    + intros d y _ Hd. by apply teams_of_org_keeps.
    + by apply Forall_forall.
    + by apply teams_of_org_has.
Qed.

Lemma team_map_invariant db user scope :
  NoDup (Dict.keys (team_map db user scope))
  ∧ Forall (team_entry_of db user) (team_map db user scope).
Proof.
  unfold team_map.
  destruct (grants scope "teams") eqn:Ht.
  - rewrite orb_true_r.
    destruct (teams_of_owned_ok db user _ (teams_of_user_ok db user)) as (? & ? & _).
    done.
  - rewrite orb_false_r. destruct (grants scope "organizations").
    + apply teams_of_user_entries.
    + split; constructor.
Qed.

Lemma is_owners_spec team :
  Team.is_owners team = true
  ↔ Organization.owners (Team.organization team) = Some (Team.id team).
Proof.
  unfold Team.is_owners. destruct (Organization.owners _) as [oid|]; [|done].
  rewrite Nat.eqb_eq. naive_solver.
Qed.

Lemma get_userinfo_teams db user auth_client scope user_session get_permissions :
  Dict.get "teams"
    (get_userinfo db user auth_client scope user_session get_permissions)
  = if nonempty (team_map db user scope)
    then Some (JList (Dict.values (team_map db user scope))) else None.
Proof.
  pose proof (get_userinfo_has_teams db user auth_client scope user_session false)
    as Hhas.
  unfold Dict.has, get_userinfo in *.
  assert (Hperm : ∀ (v : json) (d : Dict.t json),
            Dict.get "teams" (Dict.set "permissions" v d) = Dict.get "teams" d)
    by (intros; by apply Dict_get_set_ne).
  destruct (team_map db user scope) as [|e teams] eqn:E; cbn [nonempty] in *.
  - match type of Hhas with
    | match ?g with _ => _ end = _ =>
        assert (Hnone : g = None) by (by destruct g)
    end.
    destruct get_permissions; [|done].
    destruct (AuthClient.user auth_client);
      [destruct (AuthClientUserPermissions_get _ _ _)|];
      rewrite ?Hperm; exact Hnone.
  - destruct get_permissions; [|by rewrite Dict_get_set_eq].
    destruct (AuthClient.user auth_client);
      [destruct (AuthClientUserPermissions_get _ _ _)|];
      rewrite ?Hperm; by rewrite Dict_get_set_eq.
Qed.

(** C6. The [teams] list of [get_userinfo] is the list of the values of the
    team map. No two entries have the same buid. Every entry is the record of
    a team, whose [owners] flag is true exactly when the team is the owners
    team of its organization, and whose [member] flag is true for a team the
    user belongs to and false for a team of an owned organization whose buid
    is not that of a team of the user. When the first pass runs, every team
    of the user has its entry with [member] true, also when the user owns its
    organization; when the scope grants [teams], every team of an owned
    organization has an entry, with [member] false if the user does not
    belong to it. *)
Theorem get_userinfo_teams_entries db user auth_client scope user_session
    get_permissions :
  let teams := team_map db user scope in
  let listed := Dict.values teams in
  Dict.get "teams"
    (get_userinfo db user auth_client scope user_session get_permissions)
  = (if nonempty teams then Some (JList listed) else None)
  ∧ NoDup (map (json_get "buid") listed)
  ∧ (∀ e, e ∈ listed →
       ∃ team (member : bool),
         e = team_entry team member
         ∧ json_get "buid" e = Some (JStr (Team.buid team))
         ∧ json_get "member" e = Some (JBool member)
         ∧ json_get "owners" e = Some (JBool (Team.is_owners team))
         ∧ (Team.is_owners team = true
            ↔ Organization.owners (Team.organization team) = Some (Team.id team))
         ∧ if member then team ∈ User.teams user
           else (∃ org, org ∈ User.organizations_owned user
                        ∧ team ∈ Organization_teams db org)
                ∧ Team.buid team ∉ map Team.buid (User.teams user))
  ∧ (grants scope "organizations" = true ∨ grants scope "teams" = true →
     ∀ team, team ∈ User.teams user →
       ∃ team', team' ∈ User.teams user
                ∧ Team.buid team' = Team.buid team
                ∧ Dict.get (Team.buid team) teams = Some (team_entry team' true))
  ∧ (grants scope "teams" = true →
     ∀ org team,
       org ∈ User.organizations_owned user →
       team ∈ Organization_teams db org →
       ∃ team' member,
         Team.buid team' = Team.buid team
         ∧ Dict.get (Team.buid team) teams = Some (team_entry team' member)
         ∧ (Team.buid team ∉ map Team.buid (User.teams user) → member = false)).
Proof.
  intros teams listed.
  destruct (team_map_invariant db user scope) as [Hnd Hall].
  fold teams in Hnd, Hall.
  assert (Hget : ∀ k, Dict.has k teams = true →
            ∃ team member, Team.buid team = k
              ∧ Dict.get k teams = Some (team_entry team member)
              ∧ if member then team ∈ User.teams user
                else Team.buid team ∉ map Team.buid (User.teams user)).
  { intros k Hk. unfold Dict.has in Hk.
    destruct (Dict.get k teams) as [v|] eqn:Ev; [|done].
    apply Dict_get_elem in Ev as Hin.
    rewrite Forall_forall in Hall.
    destruct (Hall _ Hin) as (team & member & [= -> ->] & Hm).
    exists team, member. split_and!; [done..|].
    destruct member; [done | by destruct Hm]. }
  split_and!.
  - apply get_userinfo_teams.
  - subst listed. unfold Dict.values.
    assert (map (json_get "buid") (map snd teams)
            = map (λ k, Some (JStr k)) (Dict.keys teams)) as ->.
    { unfold Dict.keys. clear Hnd Hget. induction Hall as [|e d He Hd IH]; [done|].
      destruct He as (team & member & -> & _). cbn. by rewrite IH. }
    assert (Inj (=) (=) (λ k : string, Some (JStr k)))
      by (by intros k1 k2 [= ->]).
    by apply (NoDup_fmap_2 (λ k, Some (JStr k))).
  - intros e (kv & -> & Hin)%list_elem_of_fmap.
    rewrite Forall_forall in Hall.
    destruct (Hall _ Hin) as (team & member & -> & Hm).
    exists team, member. split_and!; [done..| apply is_owners_spec | done].
  - intros Hg team Hin.
    assert (Hhas : Dict.has (Team.buid team) teams = true).
    { subst teams. unfold team_map. destruct (grants scope "teams") eqn:Ht.
      - rewrite orb_true_r.
        by apply (teams_of_owned_ok db user _ (teams_of_user_ok db user)).
      - destruct Hg as [Hg|Hg]; [|done]. rewrite Hg. cbn.
        by apply teams_of_user_has. }
    destruct (Hget _ Hhas) as (team' & member & Hb & Hv & Hm).
    destruct member.
    + by exists team'.
    + destruct Hm. rewrite Hb. apply list_elem_of_fmap. by exists team.
  - intros Hg org team Horg Hteam.
    assert (Hhas : Dict.has (Team.buid team) teams = true).
    { subst teams. unfold team_map. rewrite Hg, orb_true_r.
      by eapply teams_of_owned_has. }
    destruct (Hget _ Hhas) as (team' & member & Hb & Hv & Hm).
    exists team', member. split_and!; [done..|].
    intros Hnot. destruct member; [|done].
    destruct Hnot. rewrite <- Hb. apply list_elem_of_fmap. by exists team'.
Qed.

(** bob belongs to the owners team of acme and owns acme: the owners team is
    listed once, as member and owners; the developers team is listed as
    non-member. *)
Lemma get_userinfo_teams_entries_witness :
  Dict.get "teams" (get_userinfo Sample.db Sample.bob Sample.crm ["teams"] None false)
  = Some (JList [team_entry Sample.owners_team true;
                 team_entry Sample.dev_team false])
  ∧ ∃ team', team' ∈ User.teams Sample.bob
      ∧ Team.buid team' = "team-owners"
      ∧ Dict.get "team-owners" (team_map Sample.db Sample.bob ["teams"])
        = Some (team_entry team' true).
Proof.
  pose proof (get_userinfo_teams_entries Sample.db Sample.bob Sample.crm
                ["teams"] None false) as H.
  cbv zeta in H. destruct H as (Hl & _ & _ & Hm & _).
  split; [rewrite Hl; vm_compute; reflexivity|].
  apply (Hm (or_intror eq_refl) Sample.owners_team). vm_compute. left.
Defined.

(** ** C9: the id resource *)

(** C9, as the code has it. For a token with a user, [resource_id] returns
    [get_userinfo] of the user for the token's client against the token's
    effective scope with permissions, when [args] has [all] and [getbool]
    finds it true; otherwise it returns [get_userinfo] with scope [["id"]]
    and without permissions, which is the nine fields of the [id] topic:
    userid, buid, uuid, username, fullname, timezone, avatar, oldids,
    olduuids. *)
Theorem resource_id_projection (getbool : string → option bool) db authtoken
    user args :
  AuthToken.user authtoken = Some user →
  let auth_client := AuthToken.auth_client authtoken in
  let truthy_all := ∃ v, Dict.get "all" args = Some v ∧ getbool v = Some true in
  (truthy_all →
   resource_id getbool db authtoken args
   = Return (get_userinfo db user auth_client
               (AuthToken.effective_scope authtoken) None true))
  ∧ (¬ truthy_all →
     resource_id getbool db authtoken args
     = Return (get_userinfo db user auth_client ["id"] None false))
  ∧ get_userinfo db user auth_client ["id"] None false = id_fields user
  ∧ Dict.keys (id_fields user)
    = ["userid"; "buid"; "uuid"; "username"; "fullname"; "timezone"; "avatar";
       "oldids"; "olduuids"]
  ∧ Dict.get "userid" (id_fields user) = Some (JStr (User.buid user))
  ∧ Dict.has "permissions" (id_fields user) = false.
Proof.
  intros Huser auth_client truthy_all. unfold resource_id. rewrite Huser.
  split_and!; try reflexivity.
  - intros (v & -> & ->). done.
  - intros Hn. destruct (Dict.get "all" args) as [v|]; [|done].
    destruct (getbool v) as [[|]|] eqn:E; [|done..].
    destruct Hn. by exists v.
Qed.

Lemma resource_id_projection_witness :
  resource_id Lib.getbool Sample.db Sample.token [("all", "Yes")]
  = Return (get_userinfo Sample.db Sample.alice Sample.app
              ["id"; "crm:contacts"; "other:x"; "crm:deals"] None true).
Proof.
  refine (proj1 (resource_id_projection Lib.getbool Sample.db Sample.token
                   Sample.alice [("all", "Yes")] eq_refl) _).
  exists "Yes". split; vm_compute; reflexivity.
Defined.

(** Without [all], the document returned for the token of alice has the nine
    fields of the [id] topic, [username] among them: it is not the document
    whose only field is [userid]. *)
Lemma resource_id_minimal_has_nine_fields :
  resource_id Lib.getbool Sample.db Sample.token []
  = Return (id_fields Sample.alice)
  ∧ Dict.get "username" (id_fields Sample.alice) = Some (JStr "alice")
  ∧ resource_id Lib.getbool Sample.db Sample.token []
    ≠ Return [("userid", JStr "user-alice")].
Proof. split_and!; [vm_compute; reflexivity | reflexivity | vm_compute; discriminate]. Qed.

(** ** C10: avatar/edit *)

(** C10, as the code has it. For a token with a user and a supplied [avatar],
    [resource_avatar_edit] first parses the value. When [urlparse] returns a
    parse, the handler raises [BadRequest] and leaves the token and its user
    as they were unless the parse has the scheme [https] and a non-empty
    network location (the test is on [netloc], whatever the host in it); when
    it has, the avatar of the user becomes the supplied value, nothing else
    changes, and the document returned has that value under [avatar]. When
    [urlparse] raises, the handler raises the same exception, not
    [BadRequest], and the token and its user are as they were. *)
Theorem resource_avatar_edit_validation (urlparse : string → result ParseResult.t)
    authtoken user avatar args :
  AuthToken.user authtoken = Some user →
  Dict.get "avatar" args = Some avatar →
  let outcome := resource_avatar_edit urlparse authtoken args in
  (∀ parsed, urlparse avatar = Return parsed →
     let valid :=
       ParseResult.scheme parsed = "https" ∧ ParseResult.netloc parsed ≠ "" in
     (valid →
      outcome.1 = Return [("avatar", JStr avatar)]
      ∧ AuthToken.user outcome.2 = Some (User.set_avatar avatar user)
      ∧ User.avatar (User.set_avatar avatar user) = avatar
      ∧ AuthToken.auth_client outcome.2 = AuthToken.auth_client authtoken
      ∧ AuthToken.effective_scope outcome.2 = AuthToken.effective_scope authtoken)
     ∧ (¬ valid →
        outcome = (Raise (BadRequest "Invalid avatar URL"), authtoken)))
  ∧ (∀ e, urlparse avatar = Raise e → outcome = (Raise e, authtoken)).
Proof.
  intros Huser Hargs outcome. subst outcome.
  unfold resource_avatar_edit. rewrite Hargs. split.
  - intros parsed Hparse. cbv zeta. rewrite Hparse, Huser.
    destruct (String.eqb (ParseResult.scheme parsed) "https") eqn:Es;
      [apply String.eqb_eq in Es | apply String.eqb_neq in Es];
      (destruct (String.eqb (ParseResult.netloc parsed) "") eqn:En;
        [apply String.eqb_eq in En | apply String.eqb_neq in En]);
      cbn [andb negb fst snd]; split.
    + by intros [_ ?].
    + done.
    + intros _. by split_and!.
    + intros Hn. by destruct Hn.
    + by intros [? _].
    + done.
    + by intros [? _].
    + done.
  - intros e Hparse. by rewrite Hparse.
Qed.

(** [ftp://x.com/a.png] fails validation and the user keeps the avatar;
    [https://x.com/a.png] is stored and returned. *)
Lemma resource_avatar_edit_validation_witness :
  resource_avatar_edit Lib.urlparse Sample.token [("avatar", "ftp://x.com/a.png")]
  = (Raise (BadRequest "Invalid avatar URL"), Sample.token)
  ∧ (resource_avatar_edit Lib.urlparse Sample.token
       [("avatar", "https://x.com/a.png")]).1
    = Return [("avatar", JStr "https://x.com/a.png")].
Proof.
  split.
  - refine (proj2 (proj1 (resource_avatar_edit_validation Lib.urlparse Sample.token
                     Sample.alice "ftp://x.com/a.png"
                     [("avatar", "ftp://x.com/a.png")] eq_refl eq_refl)
                     (ParseResult.mk "ftp" "x.com" (Some "x.com")) _) _).
    + vm_compute. reflexivity.
    + vm_compute. intros [? _]. discriminate.
  - refine (proj1 (proj1 (proj1 (resource_avatar_edit_validation Lib.urlparse
                     Sample.token Sample.alice "https://x.com/a.png"
                     [("avatar", "https://x.com/a.png")] eq_refl eq_refl)
                     (ParseResult.mk "https" "x.com" (Some "x.com")) _) _)).
    + vm_compute. reflexivity.
    + vm_compute. split; [reflexivity | discriminate].
Defined.

(** [https://:443/a.png] parses with the network location [:443] and no
    host, and the handler accepts it and stores it: the value is not
    required to have a host. For [https://[x] the parser raises [ValueError],
    which the handler does not turn into [BadRequest]. *)
Lemma resource_avatar_edit_accepts_no_host :
  Lib.urlparse "https://:443/a.png"
  = Return (ParseResult.mk "https" ":443" None)
  ∧ resource_avatar_edit Lib.urlparse Sample.token [("avatar", "https://:443/a.png")]
    = (Return [("avatar", JStr "https://:443/a.png")],
       AuthToken.mk (Some (User.set_avatar "https://:443/a.png" Sample.alice))
         Sample.app (AuthToken.effective_scope Sample.token))
  ∧ resource_avatar_edit Lib.urlparse Sample.token [("avatar", "https://[x")]
    = (Raise (ValueError "Invalid IPv6 URL"), Sample.token).
Proof. split_and!; vm_compute; reflexivity. Qed.

(** * Further properties of the views *)

(** ** api_result *)

(** X1. Whatever its first argument, [api_result] answers with HTTP status
    200 or 201: 201 only for the integer 201; an integer 200 or 201 becomes
    the status [ok] in the body, and any other status is sent under HTTP 200
    and kept as it is in the body. The other parameters are passed through,
    and the response is marked as not cacheable. *)
Theorem api_result_response st _jsonp params :
  let r := api_result st _jsonp params in
  (Response.status_code r = 200%Z ∨ Response.status_code r = 201%Z)
  ∧ (Response.status_code r = 201%Z ↔ st = StatusInt 201)
  ∧ Dict.get "status" (Response.body r)
    = Some (match st with
            | StatusInt n =>
                if Z.eqb n 200 || Z.eqb n 201 then JStr "ok" else JInt n
            | StatusStr s => JStr s
            end)
  ∧ (∀ k, k ≠ "status" → Dict.get k (Response.body r) = Dict.get k params)
  ∧ Dict.get "Cache-Control" (Response.headers r)
    = Some "private, no-cache, no-store, max-age=0, must-revalidate"
  ∧ Dict.get "Pragma" (Response.headers r) = Some "no-cache"
  ∧ Response.jsonp r = _jsonp.
Proof.
  intros r. subst r. unfold api_result.
  destruct st as [n|s].
  - destruct (Z.eqb n 200) eqn:E200; [apply Z.eqb_eq in E200; subst n|];
      [|destruct (Z.eqb n 201) eqn:E201;
          [apply Z.eqb_eq in E201; subst n | apply Z.eqb_neq in E201]];
      cbn; rewrite Dict_get_set_eq; split_and!; try done; try (by left);
      try (by right); try (by intros k Hk; apply Dict_get_set_ne);
      split; try done; by intros [= ->].
  - cbn. rewrite Dict_get_set_eq. split_and!; try done; [by left|].
    intros k Hk. by apply Dict_get_set_ne.
Qed.

(** ** The values of a projection *)

Lemma Dict_get_set_if {V} (c : bool) k k' (v : V) (d : Dict.t V) :
  Dict.get k' (if c then Dict.set k v d else d)
  = if c && String.eqb k' k then Some v else Dict.get k' d.
Proof.
  destruct c; [|done]. cbn [andb]. destruct (String.eqb k' k) eqn:E.
  - apply String.eqb_eq in E. subst. apply Dict_get_set_eq.
  - apply String.eqb_neq in E. by apply Dict_get_set_ne.
Qed.

(** The document of [get_userinfo] without permissions, key by key. *)
Lemma get_userinfo_get k db user auth_client scope user_session :
  Dict.get k (get_userinfo db user auth_client scope user_session false)
  = if nonempty (team_map db user scope) && String.eqb k "teams"
    then Some (JList (Dict.values (team_map db user scope)))
    else if grants scope "organizations" && String.eqb k "organizations"
    then Some (JDict
           [("owner", JList (map org_entry (User.organizations_owned user)));
            ("member", JList (map org_entry (User.organizations_memberof user)));
            ("all", JList (map org_entry (User.organizations user)))])
    else if grants scope "phone" && String.eqb k "phone"
    then Some (JStr (User.phone user))
    else if grants scope "email" && String.eqb k "email"
    then Some (JStr (User.email user))
    else if bool_decide (is_Some user_session) && String.eqb k "sessionid"
    then (λ s, JStr (UserSession.buid s)) <$> user_session
    else if grants scope "id" then Dict.get k (id_fields user) else None.
Proof.
  unfold get_userinfo.
  set (u0 := if grants scope "id" then _ else _).
  assert (H0 : Dict.get k u0
               = if grants scope "id" then Dict.get k (id_fields user) else None).
  { subst u0. by destruct (grants scope "id"). }
  set (u1 := match user_session with Some _ => _ | None => u0 end).
  assert (H1 : Dict.get k u1
               = if bool_decide (is_Some user_session) && String.eqb k "sessionid"
                 then (λ s, JStr (UserSession.buid s)) <$> user_session
                 else Dict.get k u0).
  { subst u1. destruct user_session as [s|]; [|done].
    rewrite bool_decide_eq_true_2 by eauto.
    apply (Dict_get_set_if true). }
  set (u2 := if grants scope "email" then _ else u1).
  assert (H2 : Dict.get k u2
               = if grants scope "email" && String.eqb k "email"
                 then Some (JStr (User.email user)) else Dict.get k u1)
    by apply Dict_get_set_if.
  set (u3 := if grants scope "phone" then _ else u2).
  assert (H3 : Dict.get k u3
               = if grants scope "phone" && String.eqb k "phone"
                 then Some (JStr (User.phone user)) else Dict.get k u2)
    by apply Dict_get_set_if.
  set (u4 := if grants scope "organizations" then _ else u3).
  assert (H4 : Dict.get k u4
               = if grants scope "organizations" && String.eqb k "organizations"
                 then Some (JDict
                   [("owner", JList (map org_entry (User.organizations_owned user)));
                    ("member", JList (map org_entry (User.organizations_memberof user)));
                    ("all", JList (map org_entry (User.organizations user)))])
                 else Dict.get k u3)
    by apply Dict_get_set_if.
  rewrite <- H0, <- H1, <- H2, <- H3, <- H4.
  destruct (team_map db user scope) as [|e teams]; [done|].
  apply (Dict_get_set_if true).
Qed.

(** With permissions the document is the one without, followed by
    [permissions] when it is attached. *)
Lemma get_userinfo_with_permissions k db user auth_client scope user_session :
  k ≠ "permissions" →
  Dict.get k (get_userinfo db user auth_client scope user_session true)
  = Dict.get k (get_userinfo db user auth_client scope user_session false).
Proof.
  intros Hk. unfold get_userinfo.
  destruct (AuthClient.user auth_client);
    [destruct (AuthClientUserPermissions_get _ _ _)|]; try done;
    by apply Dict_get_set_ne.
Qed.

(** X2. [get_userinfo] discloses the session id whenever a session is passed,
    whatever the scope (also the empty one) and with or without permissions;
    without a session there is no [sessionid] key. *)
Theorem get_userinfo_sessionid db user auth_client scope user_session
    get_permissions :
  Dict.get "sessionid"
    (get_userinfo db user auth_client scope user_session get_permissions)
  = (λ s, JStr (UserSession.buid s)) <$> user_session.
Proof.
  assert (H : Dict.get "sessionid"
                (get_userinfo db user auth_client scope user_session false)
              = (λ s, JStr (UserSession.buid s)) <$> user_session).
  { rewrite get_userinfo_get. cbn. rewrite !andb_false_r.
    destruct user_session as [s|]; [done|].
    cbn. by destruct (grants scope "id"). }
  destruct get_permissions; [|done].
  by rewrite get_userinfo_with_permissions.
Qed.

(** X3. A scope that grants none of the five topics (for instance one made of
    namespaced resources only) discloses nothing of the user: without a
    session and without permissions the document is empty, and in general it
    has no key besides [sessionid] and [permissions]. *)
Theorem get_userinfo_no_topic db user auth_client scope :
  (∀ topic, topic ∈ ["id"; "email"; "phone"; "organizations"; "teams"] →
            grants scope topic = false) →
  get_userinfo db user auth_client scope None false = []
  ∧ ∀ user_session get_permissions k,
      Dict.has k (get_userinfo db user auth_client scope user_session get_permissions)
      = true →
      k = "sessionid" ∨ k = "permissions".
Proof.
  intros Hno.
  assert (Hid : grants scope "id" = false) by (apply Hno; set_solver).
  assert (He : grants scope "email" = false) by (apply Hno; set_solver).
  assert (Hp : grants scope "phone" = false) by (apply Hno; set_solver).
  assert (Ho : grants scope "organizations" = false) by (apply Hno; set_solver).
  assert (Ht : grants scope "teams" = false) by (apply Hno; set_solver).
  assert (Hmap : team_map db user scope = []).
  { unfold team_map. by rewrite Ho, Ht. }
  split.
  - unfold get_userinfo. by rewrite Hid, He, Hp, Ho, Hmap.
  - intros user_session get_permissions k. rewrite get_userinfo_has.
    rewrite Hid, He, Hp, Ho, Hmap. cbn.
    rewrite !orb_false_r, !orb_true_iff, !andb_true_iff, !String.eqb_eq.
    naive_solver.
Qed.

Lemma get_userinfo_no_topic_witness :
  get_userinfo Sample.db Sample.alice Sample.crm ["crm:contacts"; "crm:*"] None false
  = [].
Proof.
  refine (proj1 (get_userinfo_no_topic Sample.db Sample.alice Sample.crm
                   ["crm:contacts"; "crm:*"] _)).
  intros topic Ht.
  repeat (apply elem_of_cons in Ht as [->|Ht]); [..|by apply elem_of_nil in Ht];
    vm_compute; reflexivity.
Defined.

(** ** The organizations and teams resources *)

Lemma teams_of_user_members user :
  Forall (λ e, ∃ team, team ∈ User.teams user
                       ∧ e = (Team.buid team, team_entry team true))
         (teams_of_user user []).
Proof.
  unfold teams_of_user.
  apply (foldl_invariant _
           (λ d, Forall (λ e, ∃ team, team ∈ User.teams user
                                      ∧ e = (Team.buid team, team_entry team true)) d)
           (λ team, team ∈ User.teams user)).
  - intros d team Hin Hd. apply Dict_set_Forall; [done|]. by exists team.
  - by apply Forall_forall.
  - constructor.
Qed.

(** X4. For a token with a user, the [organizations] resource returns the
    three organization lists and, when the user belongs to a team, the teams
    the user belongs to, each marked as member: teams seen only through the
    ownership of an organization are never listed, and no other key
    (profile, email, phone, permissions) is present. *)
Theorem resource_organizations_document db authtoken user args :
  AuthToken.user authtoken = Some user →
  ∃ doc,
    resource_organizations db authtoken args = Return doc
    ∧ Dict.keys doc
      = "organizations" :: (if nonempty (User.teams user) then ["teams"] else [])
    ∧ Dict.get "organizations" doc
      = Some (JDict
          [("owner", JList (map org_entry (User.organizations_owned user)));
           ("member", JList (map org_entry (User.organizations_memberof user)));
           ("all", JList (map org_entry (User.organizations user)))])
    ∧ Dict.get "teams" doc
      = (if nonempty (User.teams user)
         then Some (JList (Dict.values (teams_of_user user []))) else None)
    ∧ ∀ e, e ∈ Dict.values (teams_of_user user []) →
           ∃ team, team ∈ User.teams user ∧ e = team_entry team true.
Proof.
  intros Huser. unfold resource_organizations. rewrite Huser.
  eexists. split; [done|].
  assert (Hmap : team_map db user ["organizations"] = teams_of_user user []) by done.
  assert (Hne : nonempty (teams_of_user user []) = nonempty (User.teams user)).
  { pose proof (teams_of_user_nil user []) as Hn.
    destruct (teams_of_user user []) eqn:E, (User.teams user) eqn:E'; cbn;
      naive_solver. }
  split_and!.
  - unfold get_userinfo. rewrite Hmap.
    change (grants ["organizations"] "id") with false.
    change (grants ["organizations"] "email") with false.
    change (grants ["organizations"] "phone") with false.
    change (grants ["organizations"] "organizations") with true.
    cbv iota. rewrite <- Hne. by destruct (teams_of_user user []).
  - rewrite get_userinfo_get, Hmap, Hne. cbn.
    by rewrite andb_false_r.
  - rewrite get_userinfo_get, Hmap, Hne. cbn. by rewrite andb_true_r.
  - intros e (kv & -> & Hin)%list_elem_of_fmap.
    pose proof (teams_of_user_members user) as Hall.
    rewrite Forall_forall in Hall.
    destruct (Hall _ Hin) as (team & Ht & ->). by exists team.
Qed.

Lemma resource_organizations_document_witness :
  ∃ doc,
    resource_organizations Sample.db Sample.token_bob [] = Return doc
    ∧ Dict.keys doc = ["organizations"; "teams"]
    ∧ Dict.get "teams" doc = Some (JList [team_entry Sample.owners_team true]).
Proof.
  destruct (resource_organizations_document Sample.db Sample.token_bob
              Sample.bob [] eq_refl) as (doc & Hr & Hk & _ & Ht & _).
  exists doc. split_and!; [exact Hr | exact Hk | exact Ht].
Defined.

(** X5. For a token with a user, the [teams] resource returns a document
    whose only possible key is [teams] (absent when there is no team to
    list); the list has an entry for every team the user belongs to and for
    every team of every organization the user owns. *)
Theorem resource_teams_document db authtoken user args :
  AuthToken.user authtoken = Some user →
  let teams := team_map db user ["teams"] in
  resource_teams db authtoken args
  = Return (if nonempty teams then [("teams", JList (Dict.values teams))] else [])
  ∧ (∀ team, team ∈ User.teams user → Dict.has (Team.buid team) teams = true)
  ∧ (∀ org team,
       org ∈ User.organizations_owned user →
       team ∈ Organization_teams db org →
       Dict.has (Team.buid team) teams = true).
Proof.
  intros Huser teams. unfold resource_teams. rewrite Huser.
  assert (Hmap : teams = teams_of_owned db user (teams_of_user user [])) by done.
  split_and!.
  - f_equal. unfold get_userinfo. fold teams.
    change (grants ["teams"] "id") with false.
    change (grants ["teams"] "email") with false.
    change (grants ["teams"] "phone") with false.
    change (grants ["teams"] "organizations") with false.
    cbv iota. by destruct teams.
  - intros team Hin. rewrite Hmap.
    by apply (teams_of_owned_ok db user _ (teams_of_user_ok db user)).
  - intros org team Horg Hteam. rewrite Hmap. by eapply teams_of_owned_has.
Qed.

Lemma resource_teams_document_witness :
  resource_teams Sample.db Sample.token_bob []
  = Return [("teams", JList [team_entry Sample.owners_team true;
                             team_entry Sample.dev_team false])].
Proof.
  pose proof (resource_teams_document Sample.db Sample.token_bob Sample.bob []
                eq_refl) as H.
  cbv zeta in H. destruct H as (Hr & _). rewrite Hr. vm_compute. reflexivity.
Defined.

(** ** The client endpoints as a whole *)

Lemma falsy_spec s : Py.falsy s = false ↔ ∃ v, s = Some v ∧ v ≠ "".
Proof.
  destruct s as [v|]; cbn.
  - rewrite String.eqb_neq. naive_solver.
  - naive_solver.
Qed.

(** What a successful [token_verify] tells about the request. *)
Lemma token_verify_ok_inv env :
  status_of (response_of token_verify env) = Some (JStr "ok") →
  ∃ tok ns authtoken,
    Dict.get "resource" (Env.form env) = Some "*"
    ∧ Dict.get "access_token" (Env.form env) = Some tok ∧ tok ≠ ""
    ∧ AuthClient.namespace (Env.auth_client env) = Some ns ∧ ns ≠ ""
    ∧ AuthToken_get (Env.db env) tok = Some authtoken
    ∧ (ns +:+ ":*") ∈ AuthToken.effective_scope authtoken.
Proof.
  unfold response_of. rewrite token_verify_cases. cbv zeta.
  destruct (Py.falsy (Dict.get "resource" _)) eqn:Er; [done|].
  apply falsy_spec in Er as (r & Er & Hr). rewrite Er.
  cbn [default from_option id].
  destruct (String.eqb r "*") eqn:Es; [|done]. apply String.eqb_eq in Es. subst r.
  cbn [negb].
  destruct (Py.falsy (Dict.get "access_token" _)) eqn:Et; [done|].
  apply falsy_spec in Et as (tok & Et & Htok). rewrite Et.
  destruct (Py.falsy (AuthClient.namespace _)) eqn:En; [done|].
  apply falsy_spec in En as (ns & En & Hns). rewrite En.
  cbn [default from_option id].
  destruct (AuthToken_get _ tok) as [authtoken|] eqn:Eg; [|done].
  destruct (Py.contains (ns +:+ ":*") (AuthToken.effective_scope authtoken)) eqn:Ec.
  - intros _. exists tok, ns, authtoken. apply contains_spec in Ec. done.
  - rewrite append_assoc. change (":" +:+ "*") with ":*". by rewrite Ec.
Qed.

(** X6. Whenever [token_verify] succeeds for a request, [token_get_scope]
    succeeds for the same request (same caller, same token), and the list it
    returns under [scope] has the wildcard ["*"]. *)
Theorem token_verify_ok_get_scope_ok env :
  status_of (response_of token_verify env) = Some (JStr "ok") →
  status_of (response_of token_get_scope env) = Some (JStr "ok")
  ∧ ∃ resources,
      Dict.get "clientinfo" (Response.body (response_of token_get_scope env))
        ≫= json_get "scope"
      = Some (JList (map JStr resources))
      ∧ "*" ∈ resources.
Proof.
  intros (tok & ns & authtoken & Hr & Ht & Htok & Hns & Hne & Hget & Hin)%token_verify_ok_inv.
  pose proof (token_get_scope_response env tok ns authtoken Ht Htok Hns Hne Hget)
    as Hg.
  cbv zeta in Hg.
  assert (Hs : "*" ∈ client_resources_of (ns +:+ ":")
                       (AuthToken.effective_scope authtoken)).
  { apply client_resources_of_elem. by rewrite append_assoc. }
  destruct (get_scope_ok_fields env authtoken
              (client_resources_of (ns +:+ ":") (AuthToken.effective_scope authtoken)))
    as (_ & _ & _ & Hstatus & _ & Hci & _).
  destruct (client_resources_of _ _) as [|x l] eqn:E;
    [by apply elem_of_nil in Hs|].
  rewrite Hg. split; [done|]. exists (x :: l). split; [|done].
  by rewrite Hci.
Qed.

Lemma token_verify_ok_get_scope_ok_witness :
  status_of (response_of token_get_scope
               (Sample.call [("access_token", "tok-bob"); ("resource", "*")]))
  = Some (JStr "ok").
Proof.
  refine (proj1 (token_verify_ok_get_scope_ok
                   (Sample.call [("access_token", "tok-bob"); ("resource", "*")]) _)).
  vm_compute. reflexivity.
Defined.

(** X7. [token_get_scope] checks in this order: a missing (absent or empty)
    [access_token] is a [resource_error] [no_token] with status 400, raised
    before the namespace or the token store is consulted; a caller without a
    namespace is the error [client_no_resources]; an unknown token is the
    error [no_token]; both with status 200. The [resource] parameter is never
    read. Status 400 is returned for the missing token only. *)
Theorem token_get_scope_check_order env :
  let token := Dict.get "access_token" (Env.form env) in
  let namespace := AuthClient.namespace (Env.auth_client env) in
  let failure200 e (trace : list event) :=
    (api_result (StatusStr "error") false [("error", JStr e)], trace) in
  (Py.falsy token = true →
   token_get_scope env = (resource_error "no_token" None None, []))
  ∧ (∀ tok, token = Some tok → tok ≠ "" → Py.falsy namespace = true →
            token_get_scope env = failure200 "client_no_resources" [ReadNamespace])
  ∧ (∀ tok ns, token = Some tok → tok ≠ "" → namespace = Some ns → ns ≠ "" →
               AuthToken_get (Env.db env) tok = None →
               token_get_scope env
               = failure200 "no_token" [ReadNamespace; TokenLookup tok])
  ∧ (Response.status_code (response_of token_get_scope env) = 400%Z
     ↔ Py.falsy token = true)
  ∧ (Py.falsy token = false →
     Response.status_code (response_of token_get_scope env) = 200%Z)
  ∧ (∀ resource,
       token_get_scope
         (Env.mk (Env.auth_client env)
                 (Dict.set "resource" resource (Env.form env)) (Env.db env))
       = token_get_scope env).
Proof.
  intros token namespace failure200.
  pose proof (token_get_scope_cases env) as Hc. cbv zeta in Hc.
  fold token namespace in Hc.
  assert (H200 : Py.falsy token = false →
            Response.status_code (response_of token_get_scope env) = 200%Z).
  { intros Hf. unfold response_of. rewrite Hc, Hf.
    destruct (Py.falsy namespace); [done|].
    destruct (AuthToken_get _ _) as [authtoken|]; [|done].
    destruct (client_resources_of _ _); [done|].
    unfold get_scope_ok. done. }
  split_and!.
  - intros Hf. by rewrite Hc, Hf.
  - intros tok Ht Htok Hn. by rewrite Hc, Ht, Hn, (falsy_Some_ne tok).
  - intros tok ns Ht Htok Hns Hne Hget.
    rewrite Hc, Ht, Hns, (falsy_Some_ne tok), (falsy_Some_ne ns) by done.
    cbn [default from_option id]. by rewrite Hget.
  - split.
    + intros Hs. destruct (Py.falsy token) eqn:Ef; [done|].
      rewrite H200 in Hs by done. done.
    + intros Hf. unfold response_of. by rewrite Hc, Hf.
  - done.
  - intros resource. rewrite !token_get_scope_cases. cbn [Env.form Env.auth_client Env.db].
    by rewrite (Dict_get_set_ne "resource" "access_token").
Qed.

Lemma token_get_scope_check_order_witness :
  token_get_scope (Sample.call [("access_token", "tok-unknown")])
  = (api_result (StatusStr "error") false [("error", JStr "no_token")],
     [ReadNamespace; TokenLookup "tok-unknown"]).
Proof.
  refine (proj1 (proj2 (proj2 (token_get_scope_check_order
            (Sample.call [("access_token", "tok-unknown")]))))
            "tok-unknown" "crm" eq_refl _ eq_refl _ eq_refl); discriminate.
Defined.

(** X8. Every response of [token_verify] and of [token_get_scope] has status
    200 or 400, is marked as not cacheable, is plain JSON, and has [status]
    [ok] or [error] in its body. An error body has an [error] code and none
    of [validity], [userinfo], [clientinfo]; a success body has status 200,
    [validity] and [clientinfo], and no [error] code. *)
Theorem token_endpoints_response_shape env (view : View Response.t) :
  view = token_verify ∨ view = token_get_scope →
  let r := response_of view env in
  (Response.status_code r = 200%Z ∨ Response.status_code r = 400%Z)
  ∧ Response.headers r = no_cache_headers
  ∧ Response.jsonp r = false
  ∧ ((status_of r = Some (JStr "error")
      ∧ (∃ e, error_code r = Some (JStr e))
      ∧ Dict.has "validity" (Response.body r) = false
      ∧ Dict.has "userinfo" (Response.body r) = false
      ∧ Dict.has "clientinfo" (Response.body r) = false)
     ∨ (status_of r = Some (JStr "ok")
        ∧ Response.status_code r = 200%Z
        ∧ error_code r = None
        ∧ Dict.get "validity" (Response.body r) = Some (JInt 120)
        ∧ Dict.has "clientinfo" (Response.body r) = true)).
Proof.
  assert (Herr4 : ∀ e, let r := resource_error e None None in
    (Response.status_code r = 200%Z ∨ Response.status_code r = 400%Z)
    ∧ Response.headers r = no_cache_headers ∧ Response.jsonp r = false
    ∧ ((status_of r = Some (JStr "error") ∧ (∃ e, error_code r = Some (JStr e))
        ∧ Dict.has "validity" (Response.body r) = false
        ∧ Dict.has "userinfo" (Response.body r) = false
        ∧ Dict.has "clientinfo" (Response.body r) = false)
       ∨ (status_of r = Some (JStr "ok") ∧ Response.status_code r = 200%Z
          ∧ error_code r = None
          ∧ Dict.get "validity" (Response.body r) = Some (JInt 120)
          ∧ Dict.has "clientinfo" (Response.body r) = true))).
  { intros e r. split_and!; [by right | done | done |]. left.
    split_and!; [done | by exists e | done..]. }
  assert (Herr2 : ∀ e,
    let r := api_result (StatusStr "error") false [("error", JStr e)] in
    (Response.status_code r = 200%Z ∨ Response.status_code r = 400%Z)
    ∧ Response.headers r = no_cache_headers ∧ Response.jsonp r = false
    ∧ ((status_of r = Some (JStr "error") ∧ (∃ e, error_code r = Some (JStr e))
        ∧ Dict.has "validity" (Response.body r) = false
        ∧ Dict.has "userinfo" (Response.body r) = false
        ∧ Dict.has "clientinfo" (Response.body r) = false)
       ∨ (status_of r = Some (JStr "ok") ∧ Response.status_code r = 200%Z
          ∧ error_code r = None
          ∧ Dict.get "validity" (Response.body r) = Some (JInt 120)
          ∧ Dict.has "clientinfo" (Response.body r) = true))).
  { intros e r. split_and!; [by left | done | done |]. left.
    split_and!; [done | by exists e | done..]. }
  intros [-> | ->] r; subst r; unfold response_of.
  - rewrite token_verify_cases. cbv zeta.
    destruct (Py.falsy (Dict.get "resource" _)); [apply Herr4|].
    destruct (negb _); [apply Herr4|].
    destruct (Py.falsy (Dict.get "access_token" _)); [apply Herr4|].
    destruct (Py.falsy (AuthClient.namespace _)); [apply Herr2|].
    destruct (AuthToken_get _ _) as [authtoken|]; [|apply Herr2].
    destruct (negb _ && negb _); [apply Herr2|].
    cbn [fst]. unfold verify_ok.
    split_and!; [by left | done | done |]. right.
    by destruct (AuthToken.user authtoken).
  - rewrite token_get_scope_cases. cbv zeta.
    destruct (Py.falsy (Dict.get "access_token" _)); [apply Herr4|].
    destruct (Py.falsy (AuthClient.namespace _)); [apply Herr2|].
    destruct (AuthToken_get _ _) as [authtoken|]; [|apply Herr2].
    destruct (client_resources_of _ _) as [|x l]; [apply Herr2|].
    cbn [fst]. unfold get_scope_ok.
    split_and!; [by left | done | done |]. right.
    by destruct (AuthToken.user authtoken).
Qed.

Lemma token_endpoints_response_shape_witness :
  Response.headers
    (response_of token_verify (Sample.call [("resource", "contacts")]))
  = no_cache_headers.
Proof.
  exact (proj1 (proj2 (token_endpoints_response_shape
           (Sample.call [("resource", "contacts")]) token_verify
           (or_introl eq_refl)))).
Defined.

(** ** The resources under a namespace *)

(** X9. The list computed by lines 257-261 is compositional in the scope;
    it recovers exactly the suffixes from a scope made of prefixed entries;
    it is empty exactly when no entry of the scope starts with the prefix;
    and it is never longer than the scope. *)
Theorem client_resources_of_properties nsprefix :
  (∀ scope1 scope2,
     client_resources_of nsprefix (scope1 ++ scope2)
     = client_resources_of nsprefix scope1 ++ client_resources_of nsprefix scope2)
  ∧ (∀ suffixes,
       client_resources_of nsprefix (map (λ r, nsprefix +:+ r) suffixes) = suffixes)
  ∧ (∀ scope,
       client_resources_of nsprefix scope = []
       ↔ ∀ item, item ∈ scope → Py.startswith item nsprefix = false)
  ∧ (∀ scope,
       (List.length (client_resources_of nsprefix scope) ≤ List.length scope)%nat).
Proof.
  split_and!.
  - intros scope1 scope2. rewrite !client_resources_of_omap. apply omap_app.
  - intros suffixes. rewrite client_resources_of_omap.
    induction suffixes as [|r l IH]; [done|]. cbn.
    assert (strip_prefix nsprefix (nsprefix +:+ r) = Some r) as ->
      by by apply strip_prefix_Some.
    by rewrite IH.
  - intros scope. rewrite client_resources_of_omap.
    induction scope as [|item scope IH]; cbn.
    + split; [|done]. by intros _ item ?%elem_of_nil.
    + unfold strip_prefix at 1. destruct (Py.startswith item nsprefix) eqn:E.
      * split; [done|]. intros H. specialize (H item). rewrite E in H.
        discriminate H. by left.
      * rewrite IH. split.
        -- intros H x [->|Hx]%elem_of_cons; [done | by apply H].
        -- intros H x Hx. apply H. by right.
  - intros scope. rewrite client_resources_of_omap.
    induction scope as [|item scope IH]; cbn; [done|].
    destruct (strip_prefix nsprefix item); cbn; lia.
Qed.

(** ** Permission strings *)

Lemma split_nonempty c s : Py.split c s ≠ [].
Proof.
  destruct s as [|x s]; cbn; [done|].
  destruct (Ascii.eqb x c); [done|]. by destruct (Py.split c s).
Qed.

Lemma split_join c s : str_join (String c EmptyString) (Py.split c s) = s.
Proof.
  induction s as [|x s IH]; [done|]. cbn [Py.split].
  pose proof (split_nonempty c s) as Hne.
  destruct (Ascii.eqb x c) eqn:E.
  - apply Ascii.eqb_eq in E. subst x.
    destruct (Py.split c s) as [|w ws] eqn:Es; [done|].
    cbn [str_join]. cbn [str_join] in IH. by rewrite IH.
  - destruct (Py.split c s) as [|w ws] eqn:Es; [done|].
    cbn [str_join] in *. destruct ws as [|w' ws].
    + by subst s.
    + rewrite <- IH. done.
Qed.

Lemma split_no_separator c s piece :
  piece ∈ Py.split c s → has_char c piece = false.
Proof.
  revert piece. induction s as [|x s IH]; intros piece; cbn [Py.split].
  - by intros ->%list_elem_of_singleton.
  - destruct (Ascii.eqb x c) eqn:E.
    + intros [->|H]%elem_of_cons; [done | by apply IH].
    + pose proof (split_nonempty c s) as Hne.
      destruct (Py.split c s) as [|w ws]; [done|].
      intros [->|H]%elem_of_cons.
      * cbn. rewrite E. apply IH. by left.
      * apply IH. by right.
Qed.

(** X10. For a user-owned client with a grant record for the user, the
    [permissions] list is never empty (an empty permission string gives the
    list of one empty string), none of its strings has a space, and joined
    with single spaces it is the permission string of the grant. *)
Theorem user_permissions_round_trip db user auth_client scope user_session
    owner perms :
  AuthClient.user auth_client = Some owner →
  AuthClientUserPermissions_get db auth_client user = Some perms →
  ∃ l,
    Dict.get "permissions"
      (get_userinfo db user auth_client scope user_session true)
    = Some (JList (map JStr l))
    ∧ l ≠ []
    ∧ str_join " " l = AuthClientUserPermissions.access_permissions perms
    ∧ (∀ p, p ∈ l → has_char " " p = false)
    ∧ (AuthClientUserPermissions.access_permissions perms = "" → l = [""]).
Proof.
  intros Ho Hg.
  exists (Py.split " " (AuthClientUserPermissions.access_permissions perms)).
  split_and!.
  - rewrite get_userinfo_permissions. unfold permissions_for. by rewrite Ho, Hg.
  - apply split_nonempty.
  - apply split_join.
  - intros p. apply split_no_separator.
  - by intros ->.
Qed.

Lemma user_permissions_round_trip_witness :
  ∃ l,
    Dict.get "permissions"
      (get_userinfo Sample.db Sample.alice Sample.app [] None true)
    = Some (JList (map JStr l))
    ∧ str_join " " l = "read write".
Proof.
  destruct (user_permissions_round_trip Sample.db Sample.alice Sample.app [] None
              1 (AuthClientUserPermissions.mk 2 1 "read write") eq_refl eq_refl)
    as (l & Hp & _ & Hj & _).
  exists l. split; [exact Hp | exact Hj].
Defined.

(** X11. For a client that is not user-owned, a user who belongs to no team
    gets the empty [permissions] list whatever grants exist, and no string of
    the list ever has a space. *)
Theorem team_permissions_edge db user auth_client :
  (User.teams user = [] → team_permissions db auth_client user = [])
  ∧ (∀ p, p ∈ team_permissions db auth_client user → has_char " " p = false).
Proof.
  split.
  - intros Hn.
    destruct (team_permissions db auth_client user) as [|p l] eqn:E; [done|].
    assert (Hp : p ∈ team_permissions db auth_client user) by (rewrite E; by left).
    apply elem_of_team_permissions in Hp as (permob & _ & _ & Hin & _).
    rewrite Hn in Hin. by apply elem_of_nil in Hin.
  - intros p (permob & _ & _ & _ & Hp)%elem_of_team_permissions.
    by eapply split_no_separator.
Qed.

Lemma team_permissions_edge_witness :
  team_permissions Sample.db Sample.crm Sample.carol = [].
Proof.
  exact (proj1 (team_permissions_edge Sample.db Sample.carol Sample.crm) eq_refl).
Defined.

(** ** avatar/edit, continued *)

Lemma id_fields_set_avatar v user k :
  k ≠ "avatar" →
  Dict.get k (id_fields (User.set_avatar v user)) = Dict.get k (id_fields user).
Proof.
  intros Hk. unfold id_fields. cbn.
  repeat (match goal with
          | |- context [String.eqb k ?s] => destruct (String.eqb k s) eqn:?
          end; try done).
  apply String.eqb_eq in Heqb5. done.
Qed.

(** X12. [resource_avatar_edit] changes the token's user only when it
    returns: without an [avatar] argument it raises [KeyError], and whenever
    it raises the token is as before. After a successful edit every
    projection of the user is as before except for [avatar], which is the new
    value wherever the [id] topic is granted; editing again with the same
    value changes nothing more. *)
Theorem resource_avatar_edit_effect (urlparse : string → result ParseResult.t)
    authtoken args :
  let outcome := resource_avatar_edit urlparse authtoken args in
  (Dict.get "avatar" args = None →
   outcome = (Raise (KeyError "avatar"), authtoken))
  ∧ (∀ e, outcome.1 = Raise e → outcome.2 = authtoken)
  ∧ (∀ doc, outcome.1 = Return doc →
       ∃ user avatar,
         AuthToken.user authtoken = Some user
         ∧ Dict.get "avatar" args = Some avatar
         ∧ AuthToken.user outcome.2 = Some (User.set_avatar avatar user)
         ∧ resource_avatar_edit urlparse outcome.2 args = (Return doc, outcome.2)
         ∧ ∀ db auth_client scope user_session get_permissions k,
             Dict.get k (get_userinfo db (User.set_avatar avatar user) auth_client
                           scope user_session get_permissions)
             = if String.eqb k "avatar" && grants scope "id"
               then Some (JStr avatar)
               else Dict.get k (get_userinfo db user auth_client scope
                                  user_session get_permissions)).
Proof.
  intros outcome. subst outcome. unfold resource_avatar_edit.
  destruct (Dict.get "avatar" args) as [avatar|] eqn:Ea; [|by split_and!].
  destruct (urlparse avatar) as [parsed|e] eqn:Ep; [|by split_and!].
  destruct (String.eqb _ "https" && negb _) eqn:Ev; [|by split_and!].
  destruct (AuthToken.user authtoken) as [user|] eqn:Eu; [|by split_and!].
  split_and!; [done | done |].
  intros doc [= <-]. exists user, avatar. split_and!; [done..| |].
  - reflexivity.
  - intros db auth_client scope user_session get_permissions k.
    assert (Hfalse : ∀ k,
      Dict.get k (get_userinfo db (User.set_avatar avatar user) auth_client
                    scope user_session false)
      = if String.eqb k "avatar" && grants scope "id"
        then Some (JStr avatar)
        else Dict.get k (get_userinfo db user auth_client scope user_session false)).
    { intros k'. rewrite !get_userinfo_get.
      change (team_map db (User.set_avatar avatar user) scope)
        with (team_map db user scope).
      destruct (String.eqb k' "avatar") eqn:Ek.
      - apply String.eqb_eq in Ek. subst k'. cbn.
        rewrite !andb_false_r. by destruct (grants scope "id").
      - apply String.eqb_neq in Ek. cbn [andb].
        by rewrite (id_fields_set_avatar avatar user k'). }
    destruct get_permissions; [|apply Hfalse].
    destruct (decide (k = "permissions")) as [->|Hk].
    + rewrite !get_userinfo_permissions. done.
    + rewrite !get_userinfo_with_permissions by done. apply Hfalse.
Qed.

Lemma resource_avatar_edit_effect_witness :
  ∃ user avatar,
    AuthToken.user Sample.token = Some user
    ∧ Dict.get "avatar" [("avatar", "https://x.com/a.png")] = Some avatar
    ∧ Dict.get "avatar"
        (get_userinfo Sample.db (User.set_avatar avatar user) Sample.app
           ["id"] None false)
      = Some (JStr "https://x.com/a.png").
Proof.
  pose proof (resource_avatar_edit_effect Lib.urlparse Sample.token
                [("avatar", "https://x.com/a.png")]) as H.
  cbv zeta in H. destruct H as (_ & _ & H).
  destruct (H [("avatar", JStr "https://x.com/a.png")] eq_refl)
    as (user & avatar & Hu & Ha & _ & _ & Hk).
  exists user, avatar. split_and!; [exact Hu | exact Ha |].
  rewrite Hk. injection Ha as <-. reflexivity.
Defined.

(** ** The user lookup views *)

Section LookupFacts.

Variable getuser : string → option User.t.
Variable User_pickername : User.t → string.

Local Abbreviation entry := (λ user, JDict (user_fields User_pickername user)).

Lemma first_occurrences_sublist users : first_occurrences users `sublist_of` users.
Proof.
  induction users as [|u l IH]; [done|]. cbn. apply sublist_skip.
  etrans; [apply sublist_filter | done].
Qed.

Lemma first_occurrences_NoDup users :
  NoDup (map User.buid (first_occurrences users)).
Proof.
  induction users as [|u l IH]; [constructor|]. cbn. constructor.
  - intros (v & Hb & Hv)%list_elem_of_fmap.
    apply list_elem_of_filter in Hv as [Hne _]. congruence.
  - eapply sublist_NoDup; [exact IH|].
    apply fmap_sublist, sublist_filter.
Qed.

Lemma first_occurrences_covers users user :
  user ∈ users → User.buid user ∈ map User.buid (first_occurrences users).
Proof.
  induction users as [|u l IH]; [by intros ?%elem_of_nil|]. cbn.
  intros [->|Hin]%elem_of_cons; [by left|].
  destruct (decide (User.buid user = User.buid u)) as [->|Hne]; [by left|].
  right. apply IH in Hin. apply list_elem_of_fmap in Hin as (v & Hb & Hv).
  apply list_elem_of_fmap. exists v. split; [done|].
  apply list_elem_of_filter. split; [congruence | done].
Qed.

(** The loop of [user_getall] from any state reached: it appends the first
    occurrences of the users not seen yet. *)
Lemma getall_loop_from seen names :
  let fresh :=
    filter (λ user, User.buid user ∉ map User.buid seen)
           (first_occurrences (omap getuser names)) in
  foldl (getall_step getuser User_pickername)
    (map entry seen, list_to_set (map User.buid seen)) names
  = (map entry (seen ++ fresh), list_to_set (map User.buid (seen ++ fresh))).
Proof.
  revert seen. induction names as [|name names IH]; intros seen fresh; subst fresh.
  - cbn. by rewrite app_nil_r.
  - cbn [foldl omap list_omap]. unfold getall_step at 2.
    destruct (getuser name) as [user|] eqn:Eg; [|apply IH].
    cbn [first_occurrences]. case_bool_decide as Hseen.
    + apply elem_of_list_to_set in Hseen.
      rewrite IH. cbv zeta.
      rewrite filter_cons_False by (intros Hn; by apply Hn).
      rewrite list_filter_filter_l; [done|].
      intros other Ho He. apply Ho. by rewrite He.
    + rewrite elem_of_list_to_set in Hseen.
      rewrite filter_cons_True by done.
      assert (Hst : (map entry seen ++ [entry user],
                     list_to_set (map User.buid seen) ∪ {[User.buid user]})
                    =@{list json * gset string}
                      (map entry (seen ++ [user]),
                       list_to_set (map User.buid (seen ++ [user])))).
      { rewrite !map_app. cbn [map]. by rewrite list_to_set_snoc_L. }
      rewrite Hst, IH. cbv zeta. rewrite <- !app_assoc. cbn [app].
      rewrite list_filter_filter.
      assert (Hf : filter (λ u, User.buid u ∉ map User.buid (seen ++ [user]))
                     (first_occurrences (omap getuser names))
                   = filter (λ a, (User.buid a ∉ map User.buid seen)
                                  ∧ User.buid a ≠ User.buid user)
                       (first_occurrences (omap getuser names))).
      { apply list_filter_iff. intros u. rewrite map_app, elem_of_app. cbn [map].
        rewrite list_elem_of_singleton. tauto. }
      by rewrite Hf.
Qed.

Lemma getall_results_first names :
  getall_results getuser User_pickername names
  = map entry (first_occurrences (omap getuser names)).
Proof.
  unfold getall_results.
  pose proof (getall_loop_from [] names) as H. cbv zeta in H.
  cbn [map app] in H. rewrite list_to_set_nil in H. rewrite H. cbn [fst].
  clear H. f_equal. induction (first_occurrences (omap getuser names)) as [|u l IHl];
    [done|].
  rewrite filter_cons_True by (cbn; by intros ?%elem_of_nil). by rewrite IHl.
Qed.

(** X13. [user_getall] answers [no_name_provided] for an empty list of names
    and [not_found] when no name resolves to a user. Otherwise its results
    describe the users the names resolve to, each buid once however many
    names resolve to it, in the order in which they were first found: they
    are the first occurrences, by buid, in the list of the users found. *)
Theorem user_getall_results names :
  (names = [] →
   user_getall getuser User_pickername names
   = api_result (StatusStr "error") false [("error", JStr "no_name_provided")])
  ∧ ∃ users,
      users = first_occurrences (omap getuser names)
      ∧ getall_results getuser User_pickername names = map entry users
      ∧ NoDup (map User.buid users)
      ∧ users `sublist_of` omap getuser names
      ∧ (∀ user, user ∈ omap getuser names → User.buid user ∈ map User.buid users)
      ∧ (names ≠ [] → omap getuser names = [] →
         user_getall getuser User_pickername names
         = api_result (StatusStr "error") false [("error", JStr "not_found")])
      ∧ (omap getuser names ≠ [] →
         user_getall getuser User_pickername names
         = api_result (StatusStr "ok") false
             [("results", JList (map entry users))]).
Proof.
  split; [by intros ->|].
  exists (first_occurrences (omap getuser names)).
  pose proof (getall_results_first names) as Hres.
  split_and!;
    [ done | done | apply first_occurrences_NoDup
    | apply first_occurrences_sublist | apply first_occurrences_covers | | ].
  - intros Hne Hnone. unfold user_getall. rewrite Hres, Hnone.
    by destruct names.
  - intros Hsome. unfold user_getall. rewrite Hres.
    destruct names as [|n names]; [done|].
    destruct (omap getuser (n :: names)) as [|x l]; [done|]. done.
Qed.

(** X14. For a name that is not empty, [user_getall] on that single name and
    [user_get] agree: both fail with [not_found] when the name resolves to no
    user, and otherwise [user_getall] returns the one description that
    [user_get] returns as its body. *)
Theorem user_getall_single name :
  name ≠ "" →
  match getuser name with
  | None =>
      user_getall getuser User_pickername [name]
      = api_result (StatusStr "error") false [("error", JStr "not_found")]
      ∧ user_get getuser User_pickername (Some name)
        = api_result (StatusStr "error") false [("error", JStr "not_found")]
  | Some user =>
      user_getall getuser User_pickername [name]
      = api_result (StatusStr "ok") false
          [("results", JList [JDict (user_fields User_pickername user)])]
      ∧ user_get getuser User_pickername (Some name)
        = api_result (StatusStr "ok") false (user_fields User_pickername user)
  end.
Proof.
  intros Hne. unfold user_getall, getall_results, user_get, getall_step.
  rewrite (falsy_Some_ne name) by done. cbn.
  by destruct (getuser name).
Qed.

End LookupFacts.

Lemma user_getall_single_witness :
  user_get (λ _, Some Sample.alice) User.fullname (Some "alice")
  = api_result (StatusStr "ok") false (user_fields User.fullname Sample.alice).
Proof.
  exact (proj2 (user_getall_single (λ _, Some Sample.alice) User.fullname "alice"
                  ltac:(discriminate))).
Defined.

Lemma user_getall_results_witness :
  user_getall (λ name, if String.eqb name "nobody" then None else Some Sample.alice)
    User.fullname ["alice"; "nobody"; "alice@example.com"]
  = api_result (StatusStr "ok") false
      [("results", JList [JDict (user_fields User.fullname Sample.alice)])].
Proof.
  destruct (user_getall_results
    (λ name, if String.eqb name "nobody" then None else Some Sample.alice)
    User.fullname ["alice"; "nobody"; "alice@example.com"])
    as (_ & users & Hfirst & Hres & _ & _ & _ & _ & Hok).
  rewrite Hok by (vm_compute; discriminate).
  rewrite <- Hres. vm_compute. reflexivity.
Defined.

(** X15. [user_get_by_userid] always answers with HTTP 200; a user with the
    given buid is described even when an organization has the same buid; the
    answer is [not_found] only when neither exists; and every answer is
    produced by the JSONP serialiser except the error for a missing [userid],
    which is plain JSON. *)
Theorem user_get_by_userid_response (User_get : string → option User.t)
    (Organization_get : string → option Organization.t)
    (User_pickername : User.t → string)
    (Organization_pickername : Organization.t → string) values :
  let r := user_get_by_userid User_get Organization_get User_pickername
             Organization_pickername values in
  Response.status_code r = 200%Z
  ∧ (Response.jsonp r = false ↔ Py.falsy (Dict.get "userid" values) = true)
  ∧ (Py.falsy (Dict.get "userid" values) = true →
     error_code r = Some (JStr "no_userid_provided"))
  ∧ (∀ buid user,
       Dict.get "userid" values = Some buid → buid ≠ "" →
       User_get buid = Some user →
       Response.body r
       = user_fields User_pickername user ++ [("status", JStr "ok")])
  ∧ (∀ buid org,
       Dict.get "userid" values = Some buid → buid ≠ "" →
       User_get buid = None → Organization_get buid = Some org →
       Response.body r
       = organization_fields Organization_pickername org ++ [("status", JStr "ok")])
  ∧ (∀ buid,
       Dict.get "userid" values = Some buid → buid ≠ "" →
       (error_code r = Some (JStr "not_found")
        ↔ User_get buid = None ∧ Organization_get buid = None)).
Proof.
  intros r. subst r. unfold user_get_by_userid.
  destruct (Py.falsy (Dict.get "userid" values)) eqn:Ef.
  - split_and!; try done.
    + intros buid user Hv Hne. by rewrite Hv, (falsy_Some_ne buid) in Ef.
    + intros buid org Hv Hne. by rewrite Hv, (falsy_Some_ne buid) in Ef.
    + intros buid Hv Hne. by rewrite Hv, (falsy_Some_ne buid) in Ef.
  - pose proof Ef as Ef'. apply falsy_spec in Ef' as (b & Hb & Hbne).
    rewrite Hb in *. cbn [default from_option id].
    destruct (User_get b) as [user|] eqn:Eu;
      [|destruct (Organization_get b) as [org|] eqn:Eo];
      (split_and!;
        [ done
        | by split
        | done
        | intros buid x [= <-] _ Hx; by simplify_eq
        | intros buid x [= <-] _ Hx Hy; by simplify_eq
        | intros buid [= <-] _; split;
            [intros He; try done; by cbv in He | intros [? ?]; by simplify_eq] ]).
Qed.

Lemma user_get_by_userid_response_witness :
  Response.body
    (user_get_by_userid (λ _, Some Sample.alice) (λ _, Some Sample.acme)
       User.fullname Organization.title [("userid", "user-alice")])
  = user_fields User.fullname Sample.alice ++ [("status", JStr "ok")].
Proof.
  exact (proj1 (proj2 (proj2 (proj2
    (user_get_by_userid_response (λ _, Some Sample.alice) (λ _, Some Sample.acme)
       User.fullname Organization.title [("userid", "user-alice")]))))
    "user-alice" Sample.alice eq_refl ltac:(discriminate) eq_refl).
Defined.

(** ** user/externalids *)

Section ProviderFacts.

Variable service : option string.

Local Abbreviation step :=
  (λ (response : Dict.t json) (extid : ExternalId.t),
     match service with
     | Some s =>
         if String.eqb (ExternalId.service extid) s
         then Dict.set (ExternalId.service extid) (externalid_entry extid) response
         else response
     | None =>
         Dict.set (ExternalId.service extid) (externalid_entry extid) response
     end).

(** Whether the filter lets a service through. *)
Local Abbreviation selected k := (service = None ∨ service = Some k).

Lemma providers_step_has response extid k :
  Dict.has k (step response extid) = true
  ↔ Dict.has k response = true ∨ (selected k ∧ ExternalId.service extid = k).
Proof.
  destruct service as [s|].
  - destruct (String.eqb (ExternalId.service extid) s) eqn:E.
    + apply String.eqb_eq in E.
      rewrite Dict_has_set, orb_true_iff, String.eqb_eq. naive_solver.
    + apply String.eqb_neq in E. naive_solver.
  - rewrite Dict_has_set, orb_true_iff, String.eqb_eq. naive_solver.
Qed.

Lemma providers_step_NoDup response extid :
  NoDup (Dict.keys response) → NoDup (Dict.keys (step response extid)).
Proof.
  intros H. destruct service as [s|]; [destruct (String.eqb _ s)|];
    try done; by apply Dict_keys_set_NoDup.
Qed.

Lemma providers_fold_has externalids response k :
  Dict.has k (foldl step response externalids) = true
  ↔ Dict.has k response = true
    ∨ (selected k ∧ ∃ extid, extid ∈ externalids ∧ ExternalId.service extid = k).
Proof.
  revert response. induction externalids as [|x l IH]; intros response; cbn [foldl].
  - split; [auto|]. by intros [?|(_ & ? & ?%elem_of_nil & _)].
  - rewrite IH, providers_step_has. split.
    + intros [[?|[? ?]]|(? & y & ? & ?)]; [by left | right | right].
      * split; [done|]. exists x. split; [by left | done].
      * split; [done|]. exists y. split; [by right | done].
    + intros [?|(? & y & [->|?]%elem_of_cons & ?)]; [by left; left | left | right].
      * by right.
      * split; [done|]. by exists y.
Qed.

Lemma providers_fold_keep externalids response k :
  (∀ extid, extid ∈ externalids → ExternalId.service extid ≠ k) →
  Dict.get k (foldl step response externalids) = Dict.get k response.
Proof.
  revert response. induction externalids as [|x l IH]; intros response Hl; [done|].
  cbn [foldl]. rewrite IH by (intros y Hy; apply Hl; by right).
  assert (Hx : ExternalId.service x ≠ k) by (apply Hl; by left).
  destruct service as [s|]; [destruct (String.eqb _ s)|];
    try done; by apply Dict_get_set_ne.
Qed.

(** X16. The document of [user/externalids] has one key per service of the
    user's external ids, and only the requested service when one is named;
    under each service it has the entry of the last external id of that
    service. *)
Theorem login_providers_document externalids :
  let response := login_providers_of service externalids in
  NoDup (Dict.keys response)
  ∧ (∀ k, Dict.has k response = true
          ↔ selected k
            ∧ ∃ extid, extid ∈ externalids ∧ ExternalId.service extid = k)
  ∧ (∀ before extid after,
       externalids = before ++ extid :: after →
       selected (ExternalId.service extid) →
       (∀ later, later ∈ after →
                 ExternalId.service later ≠ ExternalId.service extid) →
       Dict.get (ExternalId.service extid) response
       = Some (externalid_entry extid)).
Proof.
  intros response. subst response. unfold login_providers_of. split_and!.
  - apply (foldl_invariant step (λ d, NoDup (Dict.keys d)) (λ _, True)).
    + intros d x _. apply providers_step_NoDup.
    + by apply Forall_forall.
    + constructor.
  - intros k. rewrite providers_fold_has. cbn. naive_solver.
  - intros before extid after -> Hsel Hlast.
    rewrite foldl_app. cbn [foldl]. rewrite providers_fold_keep by done.
    destruct service as [s|].
    + destruct Hsel as [?|[= ->]]; [done|]. rewrite String.eqb_refl.
      apply Dict_get_set_eq.
    + apply Dict_get_set_eq.
Qed.

End ProviderFacts.

Lemma login_providers_document_witness :
  let twitter := ExternalId.mk "twitter" "1" "al" "tok" "sec" "bearer" in
  let github := ExternalId.mk "github" "2" "al" "tok2" "sec2" "bearer" in
  Dict.get "github" (login_providers_of (Some "github") [twitter; github])
  = Some (externalid_entry github).
Proof.
  intros twitter github.
  refine (proj2 (proj2 (login_providers_document (Some "github") [twitter; github]))
            [twitter] github [] eq_refl (or_intror eq_refl) _).
  by intros later ?%elem_of_nil.
Defined.

(** ** email *)

(** X17. For a token with a user, the [email] resource always returns the
    primary address under [email]; without a true [all] flag that is the
    whole document; with it the document also lists, under [all] and in
    order, the addresses of the user's records that are not private, and
    no address that only a private record has. *)
Theorem resource_email_document (User_emails : User.t → list UserEmail.t)
    (getbool : string → option bool) authtoken user args :
  AuthToken.user authtoken = Some user →
  ∃ doc,
    resource_email User_emails getbool authtoken args = Return doc
    ∧ Dict.get "email" doc = Some (JStr (User.email user))
    ∧ (all_flag getbool args = false → doc = [("email", JStr (User.email user))])
    ∧ (all_flag getbool args = true →
       let listed :=
         map UserEmail.email
           (filter (λ e, UserEmail.private e = false) (User_emails user)) in
       Dict.keys doc = ["email"; "all"]
       ∧ Dict.get "all" doc = Some (JList (map JStr listed))
       ∧ ∀ a, a ∈ listed
              ↔ ∃ e, e ∈ User_emails user
                     ∧ UserEmail.private e = false ∧ UserEmail.email e = a).
Proof.
  intros Hu. unfold resource_email. rewrite Hu.
  destruct (all_flag getbool args); eexists; (split; [done|]).
  - split; [done|]. split; [done|]. intros _. split; [done|]. split.
    + cbn. by rewrite map_map.
    + intros a. rewrite list_elem_of_fmap.
      setoid_rewrite list_elem_of_filter. naive_solver.
  - split; [done|]. split; done.
Qed.

Lemma resource_email_document_witness :
  resource_email
    (λ _, [UserEmail.mk "alice@example.com" false; UserEmail.mk "a@home" true])
    Lib.getbool Sample.token [("all", "1")]
  = Return [("email", JStr "alice@example.com");
            ("all", JList [JStr "alice@example.com"])].
Proof.
  destruct (resource_email_document
    (λ _, [UserEmail.mk "alice@example.com" false; UserEmail.mk "a@home" true])
    Lib.getbool Sample.token Sample.alice [("all", "1")] eq_refl)
    as (doc & Hr & _).
  rewrite Hr. vm_compute in Hr. injection Hr as <-. reflexivity.
Defined.

(** ** session/verify *)

(** X18. [session_verify] raises [KeyError] without a [sessionid]. Otherwise
    it reports the session as active exactly when the session authenticates
    and belongs to the token's user, and only then does it touch the store:
    one access by the token's client, then a commit. For any other session,
    and for a token without a user, the answer is [active] false and nothing
    is recorded. *)
Theorem session_verify_effects
    (UserSession_authenticate : string → option Session.t)
    (UserSession_access : AuthClient.t → Session.t → Session.t)
    authtoken args :
  let outcome :=
    session_verify UserSession_authenticate UserSession_access authtoken args in
  (Dict.get "sessionid" args = None →
   outcome = (Raise (KeyError "sessionid"), []))
  ∧ (∀ sessionid,
       Dict.get "sessionid" args = Some sessionid →
       let owned :=
         ∃ session user,
           UserSession_authenticate sessionid = Some session
           ∧ AuthToken.user authtoken = Some user
           ∧ User.id (Session.user session) = User.id user in
       (owned →
        ∃ session doc,
          UserSession_authenticate sessionid = Some session
          ∧ outcome.1 = Return doc
          ∧ Dict.get "active" doc = Some (JBool true)
          ∧ outcome.2
            = [Access (Session.buid session)
                 (AuthClient.buid (AuthToken.auth_client authtoken));
               Commit])
       ∧ (¬ owned → outcome = (Return [("active", JBool false)], [])))
  ∧ (AuthToken.user authtoken = None → outcome.2 = []).
Proof.
  intros outcome. subst outcome. unfold session_verify, session_of_user.
  split_and!.
  - by intros ->.
  - intros sessionid ->.
    destruct (UserSession_authenticate sessionid) as [session|]; [|naive_solver].
    destruct (AuthToken.user authtoken) as [user|]; [|naive_solver].
    destruct (Nat.eqb _ _) eqn:E;
      [apply Nat.eqb_eq in E | apply Nat.eqb_neq in E]; [|naive_solver].
    split; [|naive_solver]. intros _. exists session. eexists. done.
  - intros ->. destruct (Dict.get "sessionid" args); [|done].
    by destruct (UserSession_authenticate _).
Qed.

Lemma session_verify_effects_witness :
  (session_verify (λ _, Some (Session.mk "sess-1" Sample.bob true)) (λ _ s, s)
     Sample.token [("sessionid", "sess-1")])
  = (Return [("active", JBool false)], []).
Proof.
  refine (proj2 (proj1 (proj2 (session_verify_effects
    (λ _, Some (Session.mk "sess-1" Sample.bob true)) (λ _ s, s)
    Sample.token [("sessionid", "sess-1")])) "sess-1" eq_refl) _).
  intros (session & user & [= <-] & [= <-] & Hid). discriminate Hid.
Defined.

(** ** The login and registration forms *)

(** X19. [LoginForm.validate_password] passes exactly when the user name
    resolves to a user whose password checks; it then records that user in
    the form, and [validate_username] passes for the same user name. When it
    fails the message is the same for an unknown user and a wrong password,
    and the form's user is left as it was. *)
Theorem LoginForm_validate_password_spec (getuser : string → option User.t)
    (check_password : User.t → string → bool) username data self_user :
  let outcome :=
    LoginForm_validate_password getuser check_password username data self_user in
  (outcome.1 = Passes
   ↔ ∃ user, getuser username = Some user ∧ check_password user data = true)
  ∧ (outcome.1 = Passes →
     LoginForm_validate_username getuser username = Passes
     ∧ ∃ user, getuser username = Some user ∧ outcome.2 = Some user)
  ∧ (outcome.1 ≠ Passes →
     outcome = (Fails (ValidationError "Incorrect password"), self_user))
  ∧ (LoginForm_validate_username getuser username ≠ Passes →
     outcome.1 ≠ Passes).
Proof.
  intros outcome. subst outcome.
  unfold LoginForm_validate_password, LoginForm_validate_username.
  destruct (getuser username) as [user|].
  - destruct (check_password user data) eqn:Ec; cbn; split_and!.
    + split; [intros _; eauto | done].
    + intros _. split; [done | eauto].
    + intros H. by destruct H.
    + intros H. by destruct H.
    + split; [done | intros (u & [= <-] & Hc); congruence].
    + done.
    + done.
    + intros H. by destruct H.
  - cbn. split_and!.
    + split; [done | by intros (u & ? & _)].
    + done.
    + done.
    + done.
Qed.

Lemma LoginForm_validate_password_spec_witness :
  LoginForm_validate_username (λ _, Some Sample.alice) "alice" = Passes.
Proof.
  exact (proj1 (proj1 (proj2 (LoginForm_validate_password_spec
    (λ _, Some Sample.alice) (λ _ _, true) "alice" "secret" None)) eq_refl)).
Defined.

(** X20. [RegisterForm.validate_username] raises only [That username is
    taken], and exactly for a user name that has valid characters and is
    taken: a user name with invalid characters passes the validator, taken
    or not (line 40 returns the error instead of raising it). *)
Theorem RegisterForm_validate_username_spec (valid_username : string → bool)
    (User_by_username : string → option User.t) data :
  let outcome :=
    RegisterForm_validate_username valid_username User_by_username data in
  (outcome = Fails (ValidationError "That username is taken")
   ↔ valid_username data = true ∧ is_Some (User_by_username data))
  ∧ (valid_username data = false → outcome = Passes)
  ∧ (∀ e, outcome = Fails e → e = ValidationError "That username is taken").
Proof.
  intros outcome. subst outcome. unfold RegisterForm_validate_username.
  destruct (valid_username data); cbn.
  - destruct (User_by_username data) as [u|].
    + split_and!; [split; [eauto | done] | done | by intros e [= <-]].
    + split_and!; [split; [done | by intros [_ [? ?]]] | done | done].
  - split_and!; [split; [done | by intros [? _]] | done | done].
Qed.

Lemma RegisterForm_validate_username_spec_witness :
  RegisterForm_validate_username (λ _, false) (λ _, Some Sample.alice) "al ice"
  = Passes.
Proof.
  exact (proj1 (proj2 (RegisterForm_validate_username_spec
    (λ _, false) (λ _, Some Sample.alice) "al ice")) eq_refl).
Defined.

(** ** The id resource for a token without a user *)

(** X21. For a token without a user, [resource_id] returns the empty
    document exactly when [all] is true, the token's effective scope grants
    none of the five topics and the token's client is user-owned; in every
    other case it raises [AttributeError]. *)
Theorem resource_id_no_user (getbool : string → option bool) db authtoken args :
  AuthToken.user authtoken = None →
  let scope := AuthToken.effective_scope authtoken in
  let quiet :=
    (∃ v, Dict.get "all" args = Some v ∧ getbool v = Some true)
    ∧ (∀ topic, topic ∈ ["id"; "email"; "phone"; "organizations"; "teams"] →
                grants scope topic = false)
    ∧ is_Some (AuthClient.user (AuthToken.auth_client authtoken)) in
  (quiet → resource_id getbool db authtoken args = Return [])
  ∧ (¬ quiet → resource_id getbool db authtoken args = Raise AttributeError).
Proof.
  intros Huser scope quiet. subst quiet. unfold resource_id. rewrite Huser.
  fold scope.
  assert (Hid : get_userinfo_no_user (AuthToken.auth_client authtoken) ["id"]
                  None false = Raise AttributeError) by done.
  rewrite Hid. unfold get_userinfo_no_user.
  split.
  - intros ((v & -> & ->) & Hno & [owner Ho]).
    rewrite !Hno by set_solver. cbn. by rewrite Ho.
  - intros Hn.
    destruct (Dict.get "all" args) as [v|] eqn:Ev; [|done].
    destruct (getbool v) as [[|]|] eqn:Eb; [|done..].
    destruct (grants scope "id") eqn:E1; [done|].
    destruct (grants scope "email") eqn:E2; [done|].
    destruct (grants scope "phone") eqn:E3; [done|].
    destruct (grants scope "organizations") eqn:E4; [done|].
    destruct (grants scope "teams") eqn:E5; [done|]. cbn.
    destruct (AuthClient.user (AuthToken.auth_client authtoken)) eqn:Eo; [|done].
    destruct Hn. split_and!; [by exists v | | done].
    intros topic Ht.
    repeat (apply elem_of_cons in Ht as [->|Ht]); [done..|by apply elem_of_nil in Ht].
Qed.

Lemma resource_id_no_user_witness :
  resource_id Lib.getbool Sample.db Sample.token_app [("all", "1")] = Return [].
Proof.
  refine (proj1 (resource_id_no_user Lib.getbool Sample.db Sample.token_app
                   [("all", "1")] eq_refl) _).
  split_and!.
  - exists "1". split; vm_compute; reflexivity.
  - intros topic Ht.
    repeat (apply elem_of_cons in Ht as [->|Ht]); [..|by apply elem_of_nil in Ht];
      vm_compute; reflexivity.
  - vm_compute. eauto.
Defined.
